(** * The token lifecycle of the MCP demo servers

    A shallow embedding of the OAuth logic of the demo:

    - [authorization_server/auth_provider.py], class
      [InMemoryAuthProvider]: the four in-memory stores and the operations
      on them (client registration, authorize, login callback, code
      exchange, token lookup, revocation); the Part 2 provider has the same
      [get_client] and [register_client];
    - [authorization_server/server.py], the [introspect] route;
    - [resource_server/server.py], [IntrospectionTokenVerifier.verify_token],
      the same text in the Part 4 snapshot.

    The provider object is a record of its attributes. A method is a
    function from the provider before the call to an outcome (the value
    returned or the exception raised) and the provider after it. What a
    method draws from outside (the clock, [secrets]) is an argument. *)

From Stdlib Require Import QArith Ascii.
From stdpp Require Import gmap strings list fin_maps.

Close Scope Q_scope.
Local Open Scope string_scope.

(** ** Python values *)

(** A Python [float] as JSON delivers it: [json.loads] also reads [NaN] and
    [Infinity]. *)
Inductive pyfloat : Type :=
  | f_nan
  | f_inf (negative : bool)
  | f_fin (q : Q).

(** A decoded JSON document. A [dict] is listed by its items. *)
#[warnings="-register-all"] Inductive json : Type :=
  | JNull
  | JBool (b : bool)
  | JInt (n : Z)
  | JFloat (f : pyfloat)
  | JStr (s : string)
  | JList (l : list json)
  | JDict (d : list (string * json)).

(** [d.get(k)] *)
Fixpoint dict_get (d : list (string * json)) (k : string) : option json :=
  match d with
  | [] => None
  | (k', v) :: d' => if String.eqb k' k then Some v else dict_get d' k
  end.

(** Truth value of an object, as [not x] and [if x] test it. *)
Definition truthy (v : json) : bool :=
  match v with
  | JNull => false
  | JBool b => b
  | JInt n => negb (n =? 0)%Z
  | JFloat (f_fin q) => negb (Qnum q =? 0)%Z
  | JFloat _ => true
  | JStr s => negb (String.eqb s "")
  | JList l => negb (bool_decide (l = []))
  | JDict d => negb (bool_decide (length d = 0%nat))
  end.

(** Exceptions the modelled code raises or catches. *)
Inductive exn : Type :=
  | HTTPException (status_code : Z) (detail : string)
  | KeyError (key : string)
  | AssertionError
  | ValidationError (input : string)
  | AttributeError (name : string)
  | TypeError
  | ValueError
  | OverflowError
  | TransportError.

Inductive outcome (A : Type) : Type :=
  | Raised (e : exn)
  | Returned (a : A).
Arguments Raised {A} e.
Arguments Returned {A} a.

(** [str.isspace] on the code points below 256, the characters at which
    [str.split()] cuts. *)
Definition isspace (c : ascii) : bool :=
  let n := nat_of_ascii c in
  (((9 <=? n) && (n <=? 13)) || ((28 <=? n) && (n <=? 32))
   || (n =? 133) || (n =? 160))%nat.

(** [s.split()]: the maximal runs of characters that are not whitespace, in
    order. [word] is the run read so far. *)
Fixpoint split_from (word s : string) : list string :=
  match s with
  | EmptyString => if String.eqb word "" then [] else [word]
  | String c s' =>
      if isspace c
      then (if String.eqb word "" then split_from "" s'
            else word :: split_from "" s')
      else split_from (word ++ String c "") s'
  end.

Definition py_split (s : string) : list string := split_from "" s.

(** [sep.join(l)] *)
Fixpoint py_join (sep : string) (l : list string) : string :=
  match l with
  | [] => ""
  | [x] => x
  | x :: l' => x ++ sep ++ py_join sep l'
  end.

(** [x or y] on an optional string: [None] and the empty string are false. *)
Definition py_or (x : option string) (y : string) : string :=
  match x with
  | Some s => if String.eqb s "" then y else s
  | None => y
  end.

(** [str(b)] for a [bool]. *)
Definition str_of_bool (b : bool) : string := if b then "True" else "False".

(** ** Records of the SDK *)

(** [mcp.shared.auth.OAuthClientInformationFull], the fields the demo reads
    or stores. *)
Module OAuthClientInformationFull.
Record t : Type := mk {
  client_id : string;
  client_secret : option string;
  redirect_uris : list string;
  token_endpoint_auth_method : string;
  grant_types : list string;
  response_types : list string;
}.
End OAuthClientInformationFull.

(** [mcp.server.auth.provider.AuthorizationParams]; URLs are kept as their
    text. *)
Module AuthorizationParams.
Record t : Type := mk {
  state : option string;
  scopes : option (list string);
  code_challenge : string;
  redirect_uri : string;
  redirect_uri_provided_explicitly : bool;
  resource : option string;
}.
End AuthorizationParams.

(** [mcp.server.auth.provider.AuthorizationCode]; [expires_at] is a
    [float] of seconds, here a rational. *)
Module AuthorizationCode.
Record t : Type := mk {
  code : string;
  scopes : list string;
  expires_at : Q;
  client_id : string;
  code_challenge : string;
  redirect_uri : string;
  redirect_uri_provided_explicitly : bool;
  resource : option string;
}.
End AuthorizationCode.

(** [mcp.server.auth.provider.AccessToken] *)
Module AccessToken.
Record t : Type := mk {
  token : string;
  client_id : string;
  scopes : list string;
  expires_at : option Z;
  resource : option string;
}.
End AccessToken.

(** [mcp.server.auth.provider.RefreshToken] *)
Module RefreshToken.
Record t : Type := mk {
  token : string;
  client_id : string;
  scopes : list string;
  expires_at : option Z;
}.
End RefreshToken.

(** [mcp.shared.auth.OAuthToken] *)
Module OAuthToken.
Record t : Type := mk {
  access_token : string;
  token_type : string;
  expires_in : option Z;
  scope : option string;
  refresh_token : option string;
}.
End OAuthToken.

(** An entry of [_state_map]: a [dict[str, str | None]] under five fixed
    keys, written by [authorize] only. *)
Module state_data.
Record t : Type := mk {
  redirect_uri : option string;
  code_challenge : option string;
  redirect_uri_provided_explicitly : option string;
  client_id : option string;
  resource : option string;
}.
End state_data.

(** A value of a submitted form: text, or an uploaded file. *)
Inductive form_value : Type :=
  | FormStr (s : string)
  | UploadFile.

(** [construct_redirect_uri(base, code=..., state=...)] of the SDK adds the
    two query parameters to [base]; the target is kept as its parts. *)
Record redirect_target : Type := construct_redirect_uri {
  base_uri : string;
  code_param : string;
  state_param : string;
}.

Inductive Response : Type :=
  | RedirectResponse (url : redirect_target) (status_code : Z)
  | JSONResponse (content : json)
  | HTMLResponse (state : string).

(** ** The provider object *)

Record InMemoryAuthProvider : Type := mkProvider {
  _clients : gmap string OAuthClientInformationFull.t;
  _auth_codes : gmap string AuthorizationCode.t;
  _access_tokens : gmap string AccessToken.t;
  _state_map : gmap string state_data.t;
  _demo_username : string;
  _demo_password : string;
  _token_lifetime_seconds : Z;
  _login_url : string;
  _login_callback_url : string;
}.

Definition set_clients
    (f : gmap string OAuthClientInformationFull.t → gmap string OAuthClientInformationFull.t)
    (self : InMemoryAuthProvider) : InMemoryAuthProvider :=
  mkProvider (f (_clients self)) (_auth_codes self) (_access_tokens self)
    (_state_map self) (_demo_username self) (_demo_password self)
    (_token_lifetime_seconds self) (_login_url self) (_login_callback_url self).

Definition set_auth_codes
    (f : gmap string AuthorizationCode.t → gmap string AuthorizationCode.t)
    (self : InMemoryAuthProvider) : InMemoryAuthProvider :=
  mkProvider (_clients self) (f (_auth_codes self)) (_access_tokens self)
    (_state_map self) (_demo_username self) (_demo_password self)
    (_token_lifetime_seconds self) (_login_url self) (_login_callback_url self).

Definition set_access_tokens
    (f : gmap string AccessToken.t → gmap string AccessToken.t)
    (self : InMemoryAuthProvider) : InMemoryAuthProvider :=
  mkProvider (_clients self) (_auth_codes self) (f (_access_tokens self))
    (_state_map self) (_demo_username self) (_demo_password self)
    (_token_lifetime_seconds self) (_login_url self) (_login_callback_url self).

Definition set_state_map
    (f : gmap string state_data.t → gmap string state_data.t)
    (self : InMemoryAuthProvider) : InMemoryAuthProvider :=
  mkProvider (_clients self) (_auth_codes self) (_access_tokens self)
    (f (_state_map self)) (_demo_username self) (_demo_password self)
    (_token_lifetime_seconds self) (_login_url self) (_login_callback_url self).

(** ** Methods as state transformers that may raise *)

Definition M (A : Type) : Type :=
  InMemoryAuthProvider → outcome A * InMemoryAuthProvider.

Definition ret {A} (a : A) : M A := λ self, (Returned a, self).

Definition raise {A} (e : exn) : M A := λ self, (Raised e, self).

Definition bind {A B} (m : M A) (k : A → M B) : M B := λ self,
  match m self with
  | (Returned a, self') => k a self'
  | (Raised e, self') => (Raised e, self')
  end.

#[global] Instance M_ret : MRet M := @ret.
#[global] Instance M_bind : MBind M := λ A B k m, bind m k.

(** Reading an attribute of [self], and assigning to one. *)
Definition gets {A} (f : InMemoryAuthProvider → A) : M A :=
  λ self, (Returned (f self), self).

Definition modify (f : InMemoryAuthProvider → InMemoryAuthProvider) : M unit :=
  λ self, (Returned tt, f self).

(** [del d[k]] raises [KeyError] when [k] is not a key. *)
Definition del_auth_codes (k : string) : M unit := λ self,
  match _auth_codes self !! k with
  | None => (Raised (KeyError k), self)
  | Some _ => (Returned tt, set_auth_codes (delete k) self)
  end.

Definition del_access_tokens (k : string) : M unit := λ self,
  match _access_tokens self !! k with
  | None => (Raised (KeyError k), self)
  | Some _ => (Returned tt, set_access_tokens (delete k) self)
  end.

Definition del_state_map (k : string) : M unit := λ self,
  match _state_map self !! k with
  | None => (Raised (KeyError k), self)
  | Some _ => (Returned tt, set_state_map (delete k) self)
  end.

(** [d[k]] raises [KeyError] when [k] is not a key. *)
Definition getitem_state_map (k : string) : M state_data.t := λ self,
  match _state_map self !! k with
  | None => (Raised (KeyError k), self)
  | Some v => (Returned v, self)
  end.

(** [try: body / except KeyError: pass] *)
Definition try_except_KeyError (body : M unit) : M unit := λ self,
  match body self with
  | (Raised (KeyError _), self') => (Returned tt, self')
  | r => r
  end.

(** [assert b] *)
Definition py_assert (b : bool) : M unit :=
  if b then ret tt else raise AssertionError.

(** ** [InMemoryAuthProvider]: the methods *)

(** [get_client] *)
Definition get_client (client_id : string)
    : M (option OAuthClientInformationFull.t) :=
  gets (λ self, _clients self !! client_id).

(** [register_client] *)
Definition register_client (client_info : OAuthClientInformationFull.t) : M unit :=
  modify (set_clients
            <[OAuthClientInformationFull.client_id client_info := client_info]>).

(** [authorize]. [token_urlsafe] is what [secrets.token_urlsafe(16)] yields
    when it is called. *)
Definition authorize (client : OAuthClientInformationFull.t)
    (params : AuthorizationParams.t) (token_urlsafe : string) : M string :=
  let state := py_or (AuthorizationParams.state params) token_urlsafe in
  modify (set_state_map
    <[state := {|
        state_data.redirect_uri := Some (AuthorizationParams.redirect_uri params);
        state_data.code_challenge := Some (AuthorizationParams.code_challenge params);
        state_data.redirect_uri_provided_explicitly :=
          Some (str_of_bool (AuthorizationParams.redirect_uri_provided_explicitly params));
        state_data.client_id := Some (OAuthClientInformationFull.client_id client);
        state_data.resource := AuthorizationParams.resource params;
      |}]>);;
  login_url ← gets _login_url;
  mret (login_url ++ "?state=" ++ state ++ "&client_id="
          ++ OAuthClientInformationFull.client_id client).

(** [get_login_page]; the page is kept as the state it is rendered for. *)
Definition get_login_page (state : string) : M Response :=
  state_map ← gets _state_map;
  if String.eqb state "" || bool_decide (state_map !! state = None)
  then raise (HTTPException 400 "Invalid or missing state parameter")
  else mret (HTMLResponse state).

Section login_callback.

(** [pydantic.AnyHttpUrl(text)]: the validated URL, or nothing when the
    validation raises. The validator is the library's. *)
Variable AnyHttpUrl : string → option string.

(** [handle_login_callback]. [token_hex] is [secrets.token_hex(16)] and
    [now] is [time.time()]. *)
Definition handle_login_callback (form : gmap string form_value)
    (token_hex : string) (now : Q) : M Response :=
  let username := form !! "username" in
  let password := form !! "password" in
  let state := form !! "state" in
  match username, password, state with
  | Some (FormStr username), Some (FormStr password), Some (FormStr state) =>
      state_map ← gets _state_map;
      if bool_decide (state_map !! state = None)
      then raise (HTTPException 400 "Unknown or expired state")
      else
        demo_username ← gets _demo_username;
        demo_password ← gets _demo_password;
        if negb (String.eqb username demo_username)
           || negb (String.eqb password demo_password)
        then raise (HTTPException 401 "Invalid credentials")
        else
          data ← getitem_state_map state;
          let redirect_uri := state_data.redirect_uri data in
          let code_challenge := state_data.code_challenge data in
          let redirect_uri_provided_explicitly :=
            bool_decide (state_data.redirect_uri_provided_explicitly data
                         = Some "True") in
          let client_id := state_data.client_id data in
          let resource := state_data.resource data in
          py_assert (bool_decide (is_Some redirect_uri));;
          py_assert (bool_decide (is_Some code_challenge));;
          py_assert (bool_decide (is_Some client_id));;
          match redirect_uri, code_challenge, client_id with
          | Some redirect_uri, Some code_challenge, Some client_id =>
              let code_value := "mcp_" ++ token_hex in
              match AnyHttpUrl redirect_uri with
              | None => raise (ValidationError redirect_uri)
              | Some url =>
                  let auth_code := {|
                    AuthorizationCode.code := code_value;
                    AuthorizationCode.client_id := client_id;
                    AuthorizationCode.scopes := [];
                    AuthorizationCode.expires_at := (now + 300)%Q;
                    AuthorizationCode.code_challenge := code_challenge;
                    AuthorizationCode.redirect_uri := url;
                    AuthorizationCode.redirect_uri_provided_explicitly :=
                      redirect_uri_provided_explicitly;
                    AuthorizationCode.resource := resource;
                  |} in
                  modify (set_auth_codes <[code_value := auth_code]>);;
                  del_state_map state;;
                  mret (RedirectResponse
                          (construct_redirect_uri redirect_uri code_value state)
                          302)
              end
          | _, _, _ => raise AssertionError
          end
  | _, _, _ => raise (HTTPException 400 "Invalid form parameters")
  end.

End login_callback.

(** [load_authorization_code] *)
Definition load_authorization_code (client : OAuthClientInformationFull.t)
    (authorization_code : string) : M (option AuthorizationCode.t) :=
  gets (λ self, _auth_codes self !! authorization_code).

(** [exchange_authorization_code]. [token_hex] is [secrets.token_hex(32)]
    and [now] is [int(time.time())]. *)
Definition exchange_authorization_code (client : OAuthClientInformationFull.t)
    (authorization_code : AuthorizationCode.t)
    (token_hex : string) (now : Z) : M OAuthToken.t :=
  stored ← gets (λ self,
    _auth_codes self !! AuthorizationCode.code authorization_code);
  match stored with
  | None => raise (HTTPException 400 "Invalid authorization code")
  | Some stored =>
      if negb (String.eqb (AuthorizationCode.client_id stored)
                 (OAuthClientInformationFull.client_id client))
      then raise (HTTPException 400 "Invalid authorization code")
      else
        del_auth_codes (AuthorizationCode.code authorization_code);;
        let token_value := "mcp_" ++ token_hex in
        lifetime ← gets _token_lifetime_seconds;
        let expires_at := (now + lifetime)%Z in
        let access := {|
          AccessToken.token := token_value;
          AccessToken.client_id := OAuthClientInformationFull.client_id client;
          AccessToken.scopes := AuthorizationCode.scopes authorization_code;
          AccessToken.expires_at := Some expires_at;
          AccessToken.resource := AuthorizationCode.resource authorization_code;
        |} in
        modify (set_access_tokens <[token_value := access]>);;
        mret {|
          OAuthToken.access_token := token_value;
          OAuthToken.token_type := "Bearer";
          OAuthToken.expires_in := Some lifetime;
          OAuthToken.scope :=
            match AuthorizationCode.scopes authorization_code with
            | [] => None
            | scopes => Some (py_join " " scopes)
            end;
          OAuthToken.refresh_token := None;
        |}
  end.

(** [load_refresh_token] *)
Definition load_refresh_token (client : OAuthClientInformationFull.t)
    (refresh_token : string) : M (option RefreshToken.t) :=
  mret None.

(** [exchange_refresh_token] *)
Definition exchange_refresh_token (client : OAuthClientInformationFull.t)
    (refresh_token : RefreshToken.t) (scopes : list string) : M OAuthToken.t :=
  raise (HTTPException 400 "Refresh tokens are not supported in this demo").

(** [load_access_token]. [now] is [int(time.time())]. The test
    [access.expires_at and access.expires_at < now] is false for [None] and
    for [0]. *)
Definition load_access_token (token : string) (now : Z)
    : M (option AccessToken.t) :=
  access ← gets (λ self, _access_tokens self !! token);
  match access with
  | None => mret None
  | Some access =>
      if match AccessToken.expires_at access with
         | Some e => negb (e =? 0)%Z && (e <? now)%Z
         | None => false
         end
      then
        try_except_KeyError (del_access_tokens token);;
        mret None
      else mret (Some access)
  end.

(** [revoke_token] *)
Definition revoke_token (token : AccessToken.t + RefreshToken.t) : M unit :=
  match token with
  | inl access =>
      try_except_KeyError (del_access_tokens (AccessToken.token access))
  | inr _ => mret tt
  end.

(** ** The introspection route of the authorization server *)

(** [" ".join(x)]: [x] has to be an iterable of [str]; a [str] is iterated
    by character and a [dict] by key. *)
Definition join_json (sep : string) (x : json) : outcome string :=
  match x with
  | JList l =>
      match mapM (λ v, match v with JStr s => Some s | _ => None end) l with
      | Some strs => Returned (py_join sep strs)
      | None => Raised TypeError
      end
  | JStr s => Returned (py_join sep ((λ c, String c "") <$> String.list_ascii_of_string s))
  | JDict d => Returned (py_join sep (fst <$> d))
  | _ => Raised TypeError
  end.

(** [provider.validate_access_token]: the attribute as [introspect] finds
    it on the provider, a method from the token to a [dict] or [None], or
    nothing when the object has no such attribute. *)
Definition validate_access_token_attr : Type :=
  option (string → M (option (list (string * json)))).

(** Class [InMemoryAuthProvider] defines [get_client], [register_client],
    [authorize], [get_login_page], [handle_login_callback],
    [load_authorization_code], [exchange_authorization_code],
    [load_refresh_token], [exchange_refresh_token], [load_access_token] and
    [revoke_token], and [__init__] sets the nine attributes above: the
    provider has no attribute [validate_access_token]. *)
Definition provider_validate_access_token : validate_access_token_attr := None.

Definition inactive : Response := JSONResponse (JDict [("active", JBool false)]).

(** [introspect] of [create_app], over the attribute it looks up. [now] is
    [int(time.time())]. *)
Definition introspect (validate_access_token : validate_access_token_attr)
    (form : gmap string form_value) (now : Z) : M Response :=
  match form !! "token" with
  | Some (FormStr token) =>
      if String.eqb token "" then mret inactive
      else
        match validate_access_token with
        | None => raise (AttributeError "validate_access_token")
        | Some validate_access_token =>
            token_info ← validate_access_token token;
            match token_info with
            | None => mret inactive
            | Some token_info =>
                match join_json " " (default (JList []) (dict_get token_info "scopes")) with
                | Raised e => raise e
                | Returned scope =>
                    mret (JSONResponse (JDict [
                      ("active", JBool true);
                      ("client_id", default (JStr "") (dict_get token_info "client_id"));
                      ("scope", JStr scope);
                      ("exp", default JNull (dict_get token_info "expires_at"));
                      ("iat", JInt now)]))
                end
            end
        end
  | _ => mret inactive
  end.

(** A lookup in the shape [introspect] expects, built on
    [load_access_token]: the class does not have it. It serves to tell the
    route's own logic from the missing attribute. *)
Definition token_info_of (access : AccessToken.t) : list (string * json) :=
  [("client_id", JStr (AccessToken.client_id access));
   ("scopes", JList (JStr <$> AccessToken.scopes access));
   ("expires_at", match AccessToken.expires_at access with
                  | Some e => JInt e
                  | None => JNull
                  end)].

Definition validate_by_load (now : Z) (token : string)
    : M (option (list (string * json))) :=
  access ← load_access_token token now;
  mret (token_info_of <$> access).

(** ** Calls on the provider, one after another *)

Inductive call : Type :=
  | call_get_client (client_id : string)
  | call_register_client (client_info : OAuthClientInformationFull.t)
  | call_authorize (client : OAuthClientInformationFull.t)
      (params : AuthorizationParams.t) (token_urlsafe : string)
  | call_get_login_page (state : string)
  | call_handle_login_callback (form : gmap string form_value)
      (token_hex : string) (now : Q)
  | call_load_authorization_code (client : OAuthClientInformationFull.t)
      (authorization_code : string)
  | call_exchange_authorization_code (client : OAuthClientInformationFull.t)
      (authorization_code : AuthorizationCode.t) (token_hex : string) (now : Z)
  | call_load_refresh_token (client : OAuthClientInformationFull.t)
      (refresh_token : string)
  | call_exchange_refresh_token (client : OAuthClientInformationFull.t)
      (refresh_token : RefreshToken.t) (scopes : list string)
  | call_load_access_token (token : string) (now : Z)
  | call_revoke_token (token : AccessToken.t + RefreshToken.t)
  | call_introspect (form : gmap string form_value) (now : Z).

Section calls.

Variable AnyHttpUrl : string → option string.

(** The provider after a call, whether the call returned or raised. *)
Definition after (c : call) (self : InMemoryAuthProvider) : InMemoryAuthProvider :=
  match c with
  | call_get_client client_id => (get_client client_id self).2
  | call_register_client client_info => (register_client client_info self).2
  | call_authorize client params token_urlsafe =>
      (authorize client params token_urlsafe self).2
  | call_get_login_page state => (get_login_page state self).2
  | call_handle_login_callback form token_hex now =>
      (handle_login_callback AnyHttpUrl form token_hex now self).2
  | call_load_authorization_code client authorization_code =>
      (load_authorization_code client authorization_code self).2
  | call_exchange_authorization_code client authorization_code token_hex now =>
      (exchange_authorization_code client authorization_code token_hex now self).2
  | call_load_refresh_token client refresh_token =>
      (load_refresh_token client refresh_token self).2
  | call_exchange_refresh_token client refresh_token scopes =>
      (exchange_refresh_token client refresh_token scopes self).2
  | call_load_access_token token now => (load_access_token token now self).2
  | call_revoke_token token => (revoke_token token self).2
  | call_introspect form now =>
      (introspect provider_validate_access_token form now self).2
  end.

Definition after_all (cs : list call) (self : InMemoryAuthProvider)
    : InMemoryAuthProvider :=
  fold_left (λ self c, after c self) cs self.

End calls.

(** The login callback [c] draws the code value [v] from [secrets]. *)
Definition draws_code (v : string) (c : call) : bool :=
  match c with
  | call_handle_login_callback _ token_hex _ => String.eqb ("mcp_" ++ token_hex) v
  | _ => false
  end.


(** ** The token verifier of the resource server *)

(** What [client.post] brings back: it raises (no connection, timeout), or
    there is a response with a status and a body; [body] is [None] when
    [response.json()] raises on it. *)
Inductive http_reply : Type :=
  | PostRaised
  | Reply (status_code : Z) (body : option json).

Definition nonempty (s : string) : bool := negb (String.eqb s "").

Section token_verifier.

(** [str(x)] for an [x] that is not a [str], and the parser behind
    [int(s)] for a [str]: both are the interpreter's. *)
Variable repr : json → string.
Variable int_of_str : string → option Z.

Definition py_str (v : json) : string :=
  match v with
  | JStr s => s
  | _ => repr v
  end.

(** [int(x)] *)
Definition py_int (v : json) : outcome Z :=
  match v with
  | JInt n => Returned n
  | JBool b => Returned (if b then 1 else 0)%Z
  | JFloat (f_fin q) => Returned (Z.quot (Qnum q) (Z.pos (Qden q)))
  | JFloat f_nan => Raised ValueError
  | JFloat (f_inf _) => Raised OverflowError
  | JStr s =>
      match int_of_str s with
      | Some n => Returned n
      | None => Raised ValueError
      end
  | JNull | JList _ | JDict _ => Raised TypeError
  end.

(** The body of the [try] in [verify_token]. *)
Definition verify_token_try (token : string) (reply : http_reply)
    : outcome (option AccessToken.t) :=
  match reply with
  | PostRaised => Raised TransportError
  | Reply status_code body =>
      if negb (status_code =? 200)%Z then Returned None
      else
        match body with
        | None => Raised ValueError
        | Some (JDict data) =>
            if negb (truthy (default (JBool false) (dict_get data "active")))
            then Returned None
            else
              let scopes := default (JStr "") (dict_get data "scope") in
              let scope_list :=
                match scopes with
                | JStr scopes => List.filter nonempty (py_split scopes)
                | _ => []
                end in
              match
                match dict_get data "exp" with
                | None | Some JNull => Returned None
                | Some exp =>
                    match py_int exp with
                    | Returned n => Returned (Some n)
                    | Raised e => Raised e
                    end
                end
              with
              | Raised e => Raised e
              | Returned expires_at =>
                  let audience :=
                    match dict_get data "aud" with
                    | Some (JStr aud) => Some aud
                    | _ => None
                    end in
                  Returned (Some {|
                    AccessToken.token := token;
                    AccessToken.client_id :=
                      py_str (default (JStr "") (dict_get data "client_id"));
                    AccessToken.scopes := scope_list;
                    AccessToken.expires_at := expires_at;
                    AccessToken.resource := audience;
                  |})
              end
        | Some _ => Raised (AttributeError "get")
        end
  end.

(** [verify_token]: [except Exception] turns every exception into [None]. *)
Definition verify_token (token : string) (reply : http_reply)
    : option AccessToken.t :=
  match verify_token_try token reply with
  | Returned access => access
  | Raised _ => None
  end.

End token_verifier.

(** Splitting on whitespace and discarding empty tokens, as the words say
    it: cut at every whitespace character, then drop the empty pieces. *)
Fixpoint cut_at_whitespace (piece s : string) : list string :=
  match s with
  | EmptyString => [piece]
  | String c s' =>
      if isspace c then piece :: cut_at_whitespace "" s'
      else cut_at_whitespace (piece ++ String c "") s'
  end.

Definition split_discarding_empty (s : string) : list string :=
  List.filter nonempty (cut_at_whitespace "" s).

(** ** Shapes of the provider after a successful call *)

(** The code the callback stores for the entry [data] of [_state_map]. *)
Definition issued_code (data : state_data.t) (code_value : string)
    (client_id code_challenge url : string) (now : Q) : AuthorizationCode.t :=
  {| AuthorizationCode.code := code_value;
     AuthorizationCode.client_id := client_id;
     AuthorizationCode.scopes := [];
     AuthorizationCode.expires_at := (now + 300)%Q;
     AuthorizationCode.code_challenge := code_challenge;
     AuthorizationCode.redirect_uri := url;
     AuthorizationCode.redirect_uri_provided_explicitly :=
       bool_decide (state_data.redirect_uri_provided_explicitly data = Some "True");
     AuthorizationCode.resource := state_data.resource data |}.

(** The provider once [exchange_authorization_code] has returned. *)
Definition exchanged (client : OAuthClientInformationFull.t)
    (authorization_code : AuthorizationCode.t) (token_hex : string) (now : Z)
    (self : InMemoryAuthProvider) : InMemoryAuthProvider :=
  set_access_tokens
    <["mcp_" ++ token_hex := {|
        AccessToken.token := "mcp_" ++ token_hex;
        AccessToken.client_id := OAuthClientInformationFull.client_id client;
        AccessToken.scopes := AuthorizationCode.scopes authorization_code;
        AccessToken.expires_at := Some (now + _token_lifetime_seconds self)%Z;
        AccessToken.resource := AuthorizationCode.resource authorization_code |}]>
    (set_auth_codes (delete (AuthorizationCode.code authorization_code)) self).

(** The scopes the verifier reads off an introspection response. *)
Definition scopes_of_response (data : list (string * json)) : list string :=
  match dict_get data "scope" with
  | Some (JStr scopes) => split_discarding_empty scopes
  | _ => []
  end.

(** ** Strings: case, trimming, slicing *)

(** [str.lower] on the code points below 256: the ASCII capitals and the
    Latin-1 capitals (all of 192..222 but the multiplication sign) move up
    by 32. *)
Definition lower_char (c : ascii) : ascii :=
  let n := nat_of_ascii c in
  if (((65 <=? n) && (n <=? 90))
      || ((192 <=? n) && (n <=? 222) && negb (n =? 215)))%nat
  then ascii_of_nat (n + 32) else c.

Fixpoint py_lower (s : string) : string :=
  match s with
  | EmptyString => EmptyString
  | String c s' => String (lower_char c) (py_lower s')
  end.

(** [s.lstrip(chars)] and [s.rstrip(chars)], over the test for [chars]. *)
Fixpoint lstrip_chars (p : ascii → bool) (s : string) : string :=
  match s with
  | EmptyString => EmptyString
  | String c s' => if p c then lstrip_chars p s' else s
  end.

Fixpoint rstrip_chars (p : ascii → bool) (s : string) : string :=
  match s with
  | EmptyString => EmptyString
  | String c s' =>
      match rstrip_chars p s' with
      | EmptyString => if p c then EmptyString else String c EmptyString
      | r => String c r
      end
  end.

(** [s.strip()] *)
Definition py_strip (s : string) : string :=
  rstrip_chars isspace (lstrip_chars isspace s).

(** [s.rstrip("/")] *)
Definition is_slash (c : ascii) : bool := Ascii.eqb c "/"%char.

Definition rstrip_slash (s : string) : string := rstrip_chars is_slash s.

(** [s[n:]] *)
Fixpoint slice_from (n : nat) (s : string) : string :=
  match n, s with
  | O, _ => s
  | S n', String _ s' => slice_from n' s'
  | S _, EmptyString => EmptyString
  end.

(** ** Construction of the provider and the routes of [create_app] *)

(** [InMemoryAuthProvider.__init__]; [issuer_url] is [str(issuer_url)]. *)
Definition InMemoryAuthProvider_init (issuer_url demo_username demo_password : string)
    (token_lifetime_seconds : Z) : InMemoryAuthProvider :=
  let base := rstrip_slash issuer_url in
  mkProvider ∅ ∅ ∅ ∅ demo_username demo_password token_lifetime_seconds
    (base ++ "/login") (base ++ "/login/callback").

(** [login_page] of [create_app]; [state] is
    [request.query_params.get("state")]. *)
Definition login_page (state : option string) : M Response :=
  match state with
  | Some state =>
      if String.eqb state ""
      then raise (HTTPException 400 "Missing state parameter")
      else get_login_page state
  | None => raise (HTTPException 400 "Missing state parameter")
  end.

(** ** The tools of the resource server *)

(** [ResourceServerSettings] *)
Module ResourceServerSettings.
Record t : Type := mk {
  server_name : string;
  auth_enabled : bool;
  auth_server_url : string;
  require_auth_for_tools : list string;
  log_level : string;
}.
Definition default : t :=
  mk "mcp-demo-resource-server" false "http://localhost:9000" ["server_time"]
    "INFO".
End ResourceServerSettings.

(** What a tool finds behind [ctx.request_context]: reading it raises
    outside of a request; the context may lack the attribute [request], or
    hold [None]; a request may lack [headers]; or there are headers, listed
    as [headers.items()] yields them. *)
Inductive Context : Type :=
  | context_unavailable
  | context_without_request
  | context_request_none
  | context_request_without_headers
  | context_request (headers : list (string * string)).

(** The loop over the headers: the value of the first one whose lowered
    name is [authorization]. *)
Fixpoint first_authorization (headers : list (string * string)) : option string :=
  match headers with
  | [] => None
  | (k, v) :: headers' =>
      if String.eqb (py_lower k) "authorization" then Some v
      else first_authorization headers'
  end.

(** [_extract_bearer_token_from_context]; every exception inside ends in
    [None]. *)
Definition _extract_bearer_token_from_context (ctx : Context) : option string :=
  match ctx with
  | context_request headers =>
      match first_authorization headers with
      | None => None
      | Some auth_header =>
          if String.eqb auth_header ""
             || negb (String.prefix "bearer " (py_lower auth_header))
          then None
          else Some (py_strip (slice_from 7 auth_header))
      end
  | _ => None
  end.

(** The [PermissionError] a tool raises, by its message; the last one is
    the text [403 Forbidden: missing scopes] followed by the list. *)
Inductive PermissionError : Type :=
  | PermissionError_text (message : string)
  | PermissionError_missing_scopes (missing : list string).

(** A tool call: the error raised, or the value returned. *)
Inductive tool_result (A : Type) : Type :=
  | Denied (e : PermissionError)
  | Done (a : A).
Arguments Denied {A} e.
Arguments Done {A} a.

(** [x in l] for strings. *)
Definition py_in (x : string) (l : list string) : bool :=
  existsb (String.eqb x) l.

(** [_require_authenticated]. The verifier is a [verify_token] that
    returns, as the one of this server does. *)
Definition _require_authenticated (ctx : Context)
    (verifier : option (string → option AccessToken.t))
    (required_scopes : option (list string)) : tool_result unit :=
  match _extract_bearer_token_from_context ctx with
  | None => Denied (PermissionError_text "401 Unauthorized: missing Bearer token")
  | Some token =>
      if String.eqb token ""
      then Denied (PermissionError_text "401 Unauthorized: missing Bearer token")
      else
        match verifier with
        | None => Denied (PermissionError_text "401 Unauthorized: no verifier configured")
        | Some verify_token =>
            match verify_token token with
            | None =>
                Denied (PermissionError_text "401 Unauthorized: invalid or expired token")
            | Some access =>
                match required_scopes with
                | None | Some [] => Done tt
                | Some required_scopes =>
                    match List.filter
                            (λ s, negb (py_in s (AccessToken.scopes access)))
                            required_scopes with
                    | [] => Done tt
                    | missing => Denied (PermissionError_missing_scopes missing)
                    end
                end
            end
        end
  end.

(** [greet]; [punctuation] is absent when the caller leaves it out. *)
Definition greet (name : string) (punctuation : option string) : string :=
  let punctuation := default "!" punctuation in
  let safe_name := py_or (Some (py_strip name)) "there" in
  let end_ := if String.eqb punctuation "" then "!" else punctuation in
  "Hello, " ++ safe_name ++ end_.

Section server_time.

(** The clock value [datetime.datetime.now()] and its three renderings. *)
Variable datetime : Type.
Variable isoformat : datetime → string.
Variable timestamp : datetime → pyfloat.
Variable strftime : datetime → string.

(** [server_time] *)
Definition server_time (settings : ResourceServerSettings.t)
    (verifier : option (string → option AccessToken.t))
    (ctx : Context) (now : datetime) : tool_result json :=
  let report := JDict [
    ("current_time", JStr (isoformat now));
    ("timezone", JStr "UTC");
    ("timestamp", JFloat (timestamp now));
    ("formatted", JStr (strftime now))] in
  if py_in "server_time" (ResourceServerSettings.require_auth_for_tools settings)
  then
    match _require_authenticated ctx verifier (Some []) with
    | Denied e => Denied e
    | Done _ => Done report
    end
  else Done report.

End server_time.

Section resource_server_wiring.

Variable repr : json → string.
Variable int_of_str : string → option Z.

(** The network: what a POST of the token to a URL brings back. *)
Variable post : string → string → http_reply.

(** [IntrospectionTokenVerifier.__init__] *)
Definition introspection_url (auth_server_url : string) : string :=
  rstrip_slash auth_server_url ++ "/introspect".

(** The module-level [token_verifier] of [resource_server/server.py]: a
    verifier bound to the introspection URL when auth is enabled. *)
Definition token_verifier (settings : ResourceServerSettings.t)
    : option (string → option AccessToken.t) :=
  if ResourceServerSettings.auth_enabled settings
  then Some (λ token,
         verify_token repr int_of_str token
           (post (introspection_url (ResourceServerSettings.auth_server_url settings))
              token))
  else None.

End resource_server_wiring.

(** A string holds no whitespace character. *)
Fixpoint no_whitespace (s : string) : bool :=
  match s with
  | EmptyString => true
  | String c s' => negb (isspace c) && no_whitespace s'
  end.

(** The keys of the stores are the identities of the records, codes and
    tokens carry the prefix, and a stored code has no scopes. *)
Definition well_keyed (self : InMemoryAuthProvider) : Prop :=
  (∀ k client, _clients self !! k = Some client →
     OAuthClientInformationFull.client_id client = k)
  ∧ (∀ k code, _auth_codes self !! k = Some code →
       AuthorizationCode.code code = k
       ∧ String.prefix "mcp_" k = true
       ∧ AuthorizationCode.scopes code = [])
  ∧ (∀ k access, _access_tokens self !! k = Some access →
       AccessToken.token access = k
       ∧ String.prefix "mcp_" k = true
       ∧ is_Some (AccessToken.expires_at access)).

(** The call is a [register_client]. *)
Definition registers_client (c : call) : bool :=
  match c with
  | call_register_client _ => true
  | _ => false
  end.

(** ** Sample data *)

Definition sample_provider : InMemoryAuthProvider :=
  mkProvider ∅ ∅ ∅ ∅ "demo_user" "demo_password" 3600
    "http://localhost:9000/login" "http://localhost:9000/login/callback".

Definition sample_client (client_id : string) (client_secret : option string)
    : OAuthClientInformationFull.t :=
  {| OAuthClientInformationFull.client_id := client_id;
     OAuthClientInformationFull.client_secret := client_secret;
     OAuthClientInformationFull.redirect_uris := ["http://cb"];
     OAuthClientInformationFull.token_endpoint_auth_method := "none";
     OAuthClientInformationFull.grant_types := ["authorization_code"];
     OAuthClientInformationFull.response_types := ["code"] |}.

Definition sample_params (state : option string) : AuthorizationParams.t :=
  {| AuthorizationParams.state := state;
     AuthorizationParams.scopes := None;
     AuthorizationParams.code_challenge := "C";
     AuthorizationParams.redirect_uri := "http://cb";
     AuthorizationParams.redirect_uri_provided_explicitly := true;
     AuthorizationParams.resource := None |}.

(** A code issued to [client-a] at time 100, so expiring at 400. *)
Definition sample_code : AuthorizationCode.t :=
  {| AuthorizationCode.code := "mcp_c1";
     AuthorizationCode.scopes := ["user"; "read"];
     AuthorizationCode.expires_at := 400%Q;
     AuthorizationCode.client_id := "client-a";
     AuthorizationCode.code_challenge := "C";
     AuthorizationCode.redirect_uri := "http://cb";
     AuthorizationCode.redirect_uri_provided_explicitly := true;
     AuthorizationCode.resource := None |}.

Definition sample_token (expires_at : option Z) : AccessToken.t :=
  {| AccessToken.token := "mcp_t1";
     AccessToken.client_id := "client-a";
     AccessToken.scopes := ["user"; "read"];
     AccessToken.expires_at := expires_at;
     AccessToken.resource := None |}.

Definition provider_with_code : InMemoryAuthProvider :=
  set_auth_codes <["mcp_c1" := sample_code]> sample_provider.

Definition provider_with_token (expires_at : option Z) : InMemoryAuthProvider :=
  set_access_tokens <["mcp_t1" := sample_token expires_at]> sample_provider.

(** The provider after [authorize] for [client-a] under the state [S1]. *)
Definition provider_with_pending : InMemoryAuthProvider :=
  (authorize (sample_client "client-a" None) (sample_params (Some "S1")) "rnd"
     sample_provider).2.

Definition login_form (username password state : string) : gmap string form_value :=
  {[ "username" := FormStr username;
     "password" := FormStr password;
     "state" := FormStr state ]}.

(** A stand-in for the validator: it accepts the texts that start with an
    http scheme. *)
Definition accept_http (text : string) : option string :=
  if String.prefix "http://" text || String.prefix "https://" text
  then Some text else None.

(** Calls made between two uses of a code or of a state in the samples. *)
Definition calls_between : list call :=
  [call_load_access_token "mcp_t1" 150;
   call_authorize (sample_client "client-b" None) (sample_params None) "rnd";
   call_handle_login_callback (login_form "demo_user" "demo_password" "rnd")
     "c2" 160%Q;
   call_revoke_token (inl (sample_token (Some 3700%Z)))].

(** An introspection response as the verifier's docstring shows it. *)
Definition sample_response : list (string * json) :=
  [("active", JBool true);
   ("client_id", JStr "client-123");
   ("scope", JStr "user  read:things ");
   ("exp", JInt 1735689600)].

(** Headers of a request that carries a bearer token, and a second
    [authorization] header after it. *)
Definition sample_headers : list (string * string) :=
  [("host", "127.0.0.1:8000");
   ("Authorization", "BEARER  mcp_t1 ");
   ("authorization", "Bearer other")].

(** Settings with auth enabled, and a network on which the authorization
    server knows the one token [mcp_t1]. *)
Definition sample_rs_settings : ResourceServerSettings.t :=
  ResourceServerSettings.mk "mcp-demo-resource-server" true
    "http://localhost:9000/" ["server_time"] "INFO".

Definition sample_post (url token : string) : http_reply :=
  if String.eqb url "http://localhost:9000/introspect"
     && String.eqb token "mcp_t1"
  then Reply 200 (Some (JDict sample_response))
  else Reply 500 None.

(** A verifier that knows the token [mcp_t1], with the scope [user]. *)
Definition verifier_sample : option (string → option AccessToken.t) :=
  Some (λ token,
    if String.eqb token "mcp_t1"
    then Some {| AccessToken.token := token;
                 AccessToken.client_id := "client-a";
                 AccessToken.scopes := ["user"];
                 AccessToken.expires_at := None;
                 AccessToken.resource := None |}
    else None).

(** The provider after [authorize] for [client-a] under the state [S1]
    with the redirect URI of a native application. *)
Definition provider_with_app_redirect : InMemoryAuthProvider :=
  (authorize (sample_client "client-a" None)
     {| AuthorizationParams.state := Some "S1";
        AuthorizationParams.scopes := None;
        AuthorizationParams.code_challenge := "C";
        AuthorizationParams.redirect_uri := "myapp://cb";
        AuthorizationParams.redirect_uri_provided_explicitly := true;
        AuthorizationParams.resource := None |}
     "rnd" sample_provider).2.

(** * Properties *)

(** Unfolds the sequencing of statements so that a method body computes. *)
Ltac step_method :=
  unfold mbind, mret, M_bind, M_ret, bind, ret, raise, gets, modify,
    py_assert, try_except_KeyError, del_auth_codes, del_access_tokens,
    del_state_map, getitem_state_map in *;
  simpl in *.

(** ** Client registry *)

Lemma register_client_clients (c : OAuthClientInformationFull.t)
    (self : InMemoryAuthProvider) :
  register_client c self
  = (Returned tt,
     set_clients <[OAuthClientInformationFull.client_id c := c]> self).
Proof. reflexivity. Qed.

Lemma get_client_pure (id : string) (self : InMemoryAuthProvider) :
  get_client id self = (Returned (_clients self !! id), self).
Proof. reflexivity. Qed.

(** C10: after [register_client c], [get_client] of its [client_id] returns
    [c]; [get_client] leaves the provider as it was; registering [c'] under
    the same [client_id] replaces [c], and the registry is the one that
    registering [c'] alone gives, with as many records as before. *)
Theorem register_get_client_roundtrip
    (c c' : OAuthClientInformationFull.t) (self : InMemoryAuthProvider)
    (id : string) :
  let self1 := (register_client c self).2 in
  let self2 := (register_client c' self1).2 in
  (register_client c self).1 = Returned tt
  ∧ get_client (OAuthClientInformationFull.client_id c) self1
    = (Returned (Some c), self1)
  ∧ (get_client id self).2 = self
  ∧ (OAuthClientInformationFull.client_id c' = OAuthClientInformationFull.client_id c →
     get_client (OAuthClientInformationFull.client_id c) self2
     = (Returned (Some c'), self2)
     ∧ self2 = (register_client c' self).2
     ∧ size (_clients self2) = size (_clients self1)).
Proof.
  intros self1 self2. subst self1 self2.
  rewrite !register_client_clients, !get_client_pure. simpl.
  split; [done|]. split; [by rewrite lookup_insert_eq|]. split; [done|].
  intros ->. rewrite insert_insert_eq, lookup_insert_eq.
  split; [done|]. split.
  - unfold set_clients. simpl. by rewrite insert_insert_eq.
  - rewrite !map_size_insert. done.
Qed.

(** ** Revocation *)

Lemma discard_access_token (k : string) (self : InMemoryAuthProvider) :
  try_except_KeyError (del_access_tokens k) self
  = (Returned tt,
     match _access_tokens self !! k with
     | Some _ => set_access_tokens (delete k) self
     | None => self
     end).
Proof. step_method. by destruct (_access_tokens self !! k). Qed.

(** C9: [revoke_token] never raises; for a token that is not stored the
    provider is left as it was; for a stored one the entry under its value
    is removed, every other access token and the three other stores are
    unchanged; revoking again changes nothing more. A refresh token is
    ignored. *)
Theorem revoke_token_idempotent_frame
    (access : AccessToken.t) (self : InMemoryAuthProvider) :
  let k := AccessToken.token access in
  let self' := (revoke_token (inl access) self).2 in
  (revoke_token (inl access) self).1 = Returned tt
  ∧ (_access_tokens self !! k = None → self' = self)
  ∧ _access_tokens self' = delete k (_access_tokens self)
  ∧ (∀ k', k' ≠ k → _access_tokens self' !! k' = _access_tokens self !! k')
  ∧ _clients self' = _clients self
  ∧ _auth_codes self' = _auth_codes self
  ∧ _state_map self' = _state_map self
  ∧ revoke_token (inl access) self' = (Returned tt, self')
  ∧ ∀ refresh, revoke_token (inr refresh) self = (Returned tt, self).
Proof.
  intros k self'. subst self'. unfold revoke_token. fold k.
  rewrite discard_access_token. simpl.
  destruct (_access_tokens self !! k) as [a|] eqn:Hk; simpl.
  - split; [done|]. split; [done|]. split; [done|].
    split; [by intros k' Hne; rewrite lookup_delete_ne|].
    repeat (split; [done|]). split; [|done].
    rewrite discard_access_token. simpl. by rewrite lookup_delete_eq.
  - split; [done|]. split; [done|]. split; [by rewrite delete_id|].
    repeat (split; [done|]). split; [|done].
    rewrite discard_access_token. by rewrite Hk.
Qed.

(** ** The login callback *)

Section login_callback_facts.

Variable AnyHttpUrl : string → option string.

(** The callback either raises before it has written anything, or it
    stores one code and deletes the entry of its state. *)
Lemma handle_login_callback_cases (form : gmap string form_value)
    (token_hex : string) (now : Q) (self : InMemoryAuthProvider) :
  (∃ e, handle_login_callback AnyHttpUrl form token_hex now self = (Raised e, self))
  ∨ (∃ state data redirect_uri code_challenge client_id url,
       form !! "username" = Some (FormStr (_demo_username self))
       ∧ form !! "password" = Some (FormStr (_demo_password self))
       ∧ form !! "state" = Some (FormStr state)
       ∧ _state_map self !! state = Some data
       ∧ state_data.redirect_uri data = Some redirect_uri
       ∧ state_data.code_challenge data = Some code_challenge
       ∧ state_data.client_id data = Some client_id
       ∧ AnyHttpUrl redirect_uri = Some url
       ∧ handle_login_callback AnyHttpUrl form token_hex now self
         = (Returned (RedirectResponse
              (construct_redirect_uri redirect_uri ("mcp_" ++ token_hex) state) 302),
            set_state_map (delete state)
              (set_auth_codes
                 <["mcp_" ++ token_hex :=
                     issued_code data ("mcp_" ++ token_hex) client_id
                       code_challenge url now]> self))).
Proof.
  unfold handle_login_callback.
  destruct (form !! "username") as [[username|]|]; [|left; by eexists..].
  destruct (form !! "password") as [[password|]|]; [|left; by eexists..].
  destruct (form !! "state") as [[state|]|]; [|left; by eexists..].
  step_method.
  destruct (_state_map self !! state) as [data|] eqn:Hdata; simpl;
    [|left; by eexists].
  destruct (String.eqb username (_demo_username self)) eqn:Hu; simpl;
    [|left; by eexists].
  destruct (String.eqb password (_demo_password self)) eqn:Hp; simpl;
    [|left; by eexists].
  apply String.eqb_eq in Hu, Hp. subst username password.
  rewrite Hdata.
  destruct (state_data.redirect_uri data) as [redirect_uri|] eqn:H1; simpl;
    [|left; by eexists].
  destruct (state_data.code_challenge data) as [code_challenge|] eqn:H2; simpl;
    [|left; by eexists].
  destruct (state_data.client_id data) as [client_id|] eqn:H3; simpl;
    [|left; by eexists].
  destruct (AnyHttpUrl redirect_uri) as [url|] eqn:H4; simpl;
    [|left; by eexists].
  rewrite Hdata. right.
  exists state, data, redirect_uri, code_challenge, client_id, url.
  by repeat split.
Qed.

End login_callback_facts.

(** ** Code exchange *)

Lemma exchange_authorization_code_cases (client : OAuthClientInformationFull.t)
    (authorization_code : AuthorizationCode.t) (token_hex : string) (now : Z)
    (self : InMemoryAuthProvider) :
  match _auth_codes self !! AuthorizationCode.code authorization_code with
  | None =>
      exchange_authorization_code client authorization_code token_hex now self
      = (Raised (HTTPException 400 "Invalid authorization code"), self)
  | Some stored =>
      if String.eqb (AuthorizationCode.client_id stored)
           (OAuthClientInformationFull.client_id client)
      then
        ∃ token,
          OAuthToken.access_token token = "mcp_" ++ token_hex
          ∧ exchange_authorization_code client authorization_code token_hex now self
            = (Returned token,
               exchanged client authorization_code token_hex now self)
      else
        exchange_authorization_code client authorization_code token_hex now self
        = (Raised (HTTPException 400 "Invalid authorization code"), self)
  end.
Proof.
  unfold exchange_authorization_code. step_method.
  destruct (_auth_codes self !! AuthorizationCode.code authorization_code)
    as [stored|] eqn:Hstored; [|done].
  destruct (String.eqb _ _); simpl; [|done].
  rewrite Hstored. eexists. split; [|reflexivity]. reflexivity.
Qed.

(** C5: when the stored code is bound to another client, the exchange
    raises the invalid-grant error and the provider is left as it was, so
    the code is still stored and no access token has been added. *)
Theorem exchange_code_client_mismatch (client : OAuthClientInformationFull.t)
    (authorization_code stored : AuthorizationCode.t) (token_hex : string)
    (now : Z) (self : InMemoryAuthProvider) :
  _auth_codes self !! AuthorizationCode.code authorization_code = Some stored →
  AuthorizationCode.client_id stored ≠ OAuthClientInformationFull.client_id client →
  exchange_authorization_code client authorization_code token_hex now self
  = (Raised (HTTPException 400 "Invalid authorization code"), self).
Proof.
  intros Hstored Hne.
  pose proof (exchange_authorization_code_cases client authorization_code
                token_hex now self) as H.
  rewrite Hstored in H.
  by rewrite (proj2 (String.eqb_neq _ _) Hne) in H.
Qed.

(** ** What a call may do to each store *)

Lemma get_login_page_provider (state : string) (self : InMemoryAuthProvider) :
  (get_login_page state self).2 = self.
Proof.
  unfold get_login_page. step_method.
  by destruct (String.eqb state "" || bool_decide (_state_map self !! state = None)).
Qed.

Lemma load_access_token_provider (token : string) (now : Z)
    (self : InMemoryAuthProvider) :
  (load_access_token token now self).2 = self
  ∨ (load_access_token token now self).2 = set_access_tokens (delete token) self.
Proof.
  unfold load_access_token. step_method.
  destruct (_access_tokens self !! token) as [a|] eqn:Ha; simpl; [|by left].
  destruct (match AccessToken.expires_at a with Some _ => _ | None => _ end);
    simpl; [|by left].
  rewrite Ha. by right.
Qed.

Lemma revoke_token_provider (token : AccessToken.t + RefreshToken.t)
    (self : InMemoryAuthProvider) :
  (revoke_token token self).2 = self
  ∨ ∃ k, (revoke_token token self).2 = set_access_tokens (delete k) self.
Proof.
  destruct token as [a|r]; simpl; [|by left].
  rewrite discard_access_token. destruct (_ !! _); simpl; [right|left]; eauto.
Qed.

Lemma introspect_provider (form : gmap string form_value) (now : Z)
    (self : InMemoryAuthProvider) :
  (introspect provider_validate_access_token form now self).2 = self.
Proof.
  unfold introspect.
  by destruct (form !! "token") as [[t|]|]; [destruct (String.eqb t "")|..].
Qed.

Section frames.

Variable AnyHttpUrl : string → option string.

(** Only a login callback that draws [v] can put a code under [v]. *)
Lemma after_auth_codes_absent (c : call) (v : string)
    (self : InMemoryAuthProvider) :
  draws_code v c = false →
  _auth_codes self !! v = None →
  _auth_codes (after AnyHttpUrl c self) !! v = None.
Proof.
  intros Hdraw Hv.
  destruct c as [id|info|cl params rnd|st|form token_hex now|cl code
                |client authorization_code token_hex now|cl rt|cl rt scopes
                |token now|token|form now]; simpl; try done.
  - by rewrite get_login_page_provider.
  - destruct (handle_login_callback_cases AnyHttpUrl form token_hex now self)
      as [[e ->]|(s&d&r&cc&ci&u&_&_&_&_&_&_&_&_&->)]; simpl; [done|].
    change (String.eqb ("mcp_" ++ token_hex) v = false) in Hdraw.
    apply String.eqb_neq in Hdraw. by rewrite lookup_insert_ne.
  - pose proof (exchange_authorization_code_cases client authorization_code
                  token_hex now self) as H.
    destruct (_auth_codes self !! AuthorizationCode.code authorization_code);
      [destruct (String.eqb _ _); [destruct H as (tok&_&->)|rewrite H]
      |rewrite H]; simpl; try done.
    rewrite lookup_delete. by case_decide.
  - by destruct (load_access_token_provider token now self) as [->| ->].
  - by destruct (revoke_token_provider token self) as [->|[k ->]].
  - by rewrite introspect_provider.
Qed.

Lemma after_all_auth_codes_absent (cs : list call) (v : string)
    (self : InMemoryAuthProvider) :
  Forall (λ c, draws_code v c = false) cs →
  _auth_codes self !! v = None →
  _auth_codes (after_all AnyHttpUrl cs self) !! v = None.
Proof.
  intros Hcs. revert self.
  induction Hcs as [|c cs Hc _ IH]; intros self Hv; simpl; [done|].
  apply IH. by apply after_auth_codes_absent.
Qed.

(** C1: once an exchange of the code value [v] has returned a token, the
    code is no longer stored, and after any further calls, none of them a
    login callback that draws [v] again from the random source, an
    exchange of [v] by any client raises the invalid-grant error and
    changes nothing. *)
Theorem exchange_code_single_use
    (client client' : OAuthClientInformationFull.t)
    (authorization_code authorization_code' : AuthorizationCode.t)
    (token_hex token_hex' : string) (now now' : Z)
    (self self1 : InMemoryAuthProvider) (token : OAuthToken.t)
    (cs : list call) :
  exchange_authorization_code client authorization_code token_hex now self
  = (Returned token, self1) →
  AuthorizationCode.code authorization_code'
  = AuthorizationCode.code authorization_code →
  Forall (λ c, draws_code (AuthorizationCode.code authorization_code) c = false) cs →
  let self2 := after_all AnyHttpUrl cs self1 in
  _auth_codes self1 !! AuthorizationCode.code authorization_code = None
  ∧ exchange_authorization_code client' authorization_code' token_hex' now' self2
    = (Raised (HTTPException 400 "Invalid authorization code"), self2).
Proof.
  intros Hfirst Hcode Hcs self2.
  assert (_auth_codes self1 !! AuthorizationCode.code authorization_code = None)
    as Hgone.
  { pose proof (exchange_authorization_code_cases client authorization_code
                  token_hex now self) as H.
    destruct (_auth_codes self !! AuthorizationCode.code authorization_code);
      [destruct (String.eqb _ _)|]; [|congruence..].
    destruct H as (tok&_&H). rewrite H in Hfirst. injection Hfirst as _ <-.
    simpl. apply lookup_delete_eq. }
  split; [done|].
  pose proof (exchange_authorization_code_cases client' authorization_code'
                token_hex' now' self2) as H.
  rewrite Hcode in H. subst self2.
  by rewrite (after_all_auth_codes_absent cs _ self1 Hcs Hgone) in H.
Qed.

End frames.

(** ** Pending authorizations *)

Section pending_authorizations.

Variable AnyHttpUrl : string → option string.


Lemma handle_login_callback_success (form : gmap string form_value)
    (s token_hex redirect_uri code_challenge client_id url : string)
    (now : Q) (data : state_data.t) (self : InMemoryAuthProvider) :
  form !! "username" = Some (FormStr (_demo_username self)) →
  form !! "password" = Some (FormStr (_demo_password self)) →
  form !! "state" = Some (FormStr s) →
  _state_map self !! s = Some data →
  state_data.redirect_uri data = Some redirect_uri →
  state_data.code_challenge data = Some code_challenge →
  state_data.client_id data = Some client_id →
  AnyHttpUrl redirect_uri = Some url →
  handle_login_callback AnyHttpUrl form token_hex now self
  = (Returned (RedirectResponse
       (construct_redirect_uri redirect_uri ("mcp_" ++ token_hex) s) 302),
     set_state_map (delete s)
       (set_auth_codes
          <["mcp_" ++ token_hex :=
              issued_code data ("mcp_" ++ token_hex) client_id
                code_challenge url now]> self)).
Proof.
  intros Hu Hp Hs Hdata H1 H2 H3 H4. unfold handle_login_callback.
  rewrite Hu, Hp, Hs. step_method.
  repeat (first [rewrite Hdata | rewrite String.eqb_refl | rewrite H1
                | rewrite H2 | rewrite H3 | rewrite H4]; simpl).
  unfold ret; simpl.
  repeat (first [rewrite Hdata | rewrite H1 | rewrite H2 | rewrite H3
                | rewrite H4]; simpl).
  done.
Qed.




(** C8, as the code has it: a login callback that raises, for an unknown
    state, a malformed form or wrong credentials as for any other reason,
    leaves the provider as it was; in particular an entry stored for a
    state is still there and no code has been added. A later callback for
    a stored state with the demo credentials then returns the redirect,
    stores the code and deletes the entry, when the entry holds a redirect
    URI that [AnyHttpUrl] accepts, a challenge and a client; [authorize]
    stores the redirect URI as it comes, so this is not so for every
    pending entry. *)
Theorem login_callback_failure_atomic (form : gmap string form_value)
    (token_hex : string) (now : Q) (self self' : InMemoryAuthProvider)
    (e : exn) :
  handle_login_callback AnyHttpUrl form token_hex now self = (Raised e, self') →
  self' = self
  ∧ ∀ form2 s token_hex2 now2 data redirect_uri code_challenge client_id url,
      form2 !! "username" = Some (FormStr (_demo_username self)) →
      form2 !! "password" = Some (FormStr (_demo_password self)) →
      form2 !! "state" = Some (FormStr s) →
      _state_map self !! s = Some data →
      state_data.redirect_uri data = Some redirect_uri →
      state_data.code_challenge data = Some code_challenge →
      state_data.client_id data = Some client_id →
      AnyHttpUrl redirect_uri = Some url →
      ∃ self'',
        handle_login_callback AnyHttpUrl form2 token_hex2 now2 self'
        = (Returned (RedirectResponse
             (construct_redirect_uri redirect_uri ("mcp_" ++ token_hex2) s) 302),
           self'')
        ∧ _state_map self'' !! s = None
        ∧ is_Some (_auth_codes self'' !! ("mcp_" ++ token_hex2)).
Proof.
  intros Hfail.
  assert (self' = self) as ->.
  { destruct (handle_login_callback_cases AnyHttpUrl form token_hex now self)
      as [[e' He]|(?&?&?&?&?&?&_&_&_&_&_&_&_&_&Hrun)]; congruence. }
  split; [done|].
  intros form2 s token_hex2 now2 data redirect_uri code_challenge client_id
    url Hu Hp Hs Hdata H1 H2 H3 H4.
  eexists. split; [by eapply handle_login_callback_success|].
  simpl. split; [apply lookup_delete_eq|].
  rewrite lookup_insert_eq. by eexists.
Qed.

End pending_authorizations.

(** ** Expiry *)

Lemma load_access_token_cases (token : string) (now : Z)
    (self : InMemoryAuthProvider) :
  load_access_token token now self
  = match _access_tokens self !! token with
    | None => (Returned None, self)
    | Some access =>
        if match AccessToken.expires_at access with
           | Some e => negb (e =? 0)%Z && (e <? now)%Z
           | None => false
           end
        then (Returned None, set_access_tokens (delete token) self)
        else (Returned (Some access), self)
    end.
Proof.
  unfold load_access_token. step_method.
  destruct (_access_tokens self !! token) as [a|] eqn:Ha; simpl; [|done].
  destruct (match AccessToken.expires_at a with Some _ => _ | None => _ end);
    simpl; [|done].
  by rewrite Ha.
Qed.

(** C3, as the code has it: a stored token is returned, and the provider
    left as it was, while the clock is at or before [expires_at], and
    always when [expires_at] is [None] or [0]; once the clock is past a
    non-zero [expires_at] the lookup returns nothing and deletes the entry,
    a second lookup then returns nothing again, and the guarded [del] on
    the entry already gone raises nothing. *)
Theorem load_access_token_expiry (token : string) (now : Z)
    (access : AccessToken.t) (self : InMemoryAuthProvider) :
  _access_tokens self !! token = Some access →
  let self' := set_access_tokens (delete token) self in
  (∀ e, AccessToken.expires_at access = Some e → (now ≤ e)%Z →
     load_access_token token now self = (Returned (Some access), self))
  ∧ (AccessToken.expires_at access = None
     ∨ AccessToken.expires_at access = Some 0%Z →
     load_access_token token now self = (Returned (Some access), self))
  ∧ (∀ e, AccessToken.expires_at access = Some e → e ≠ 0%Z → (e < now)%Z →
       load_access_token token now self = (Returned None, self')
       ∧ _access_tokens self' !! token = None
       ∧ load_access_token token now self' = (Returned None, self'))
  ∧ try_except_KeyError (del_access_tokens token) self' = (Returned tt, self').
Proof.
  intros Hstored self'.
  assert (_access_tokens self' !! token = None) as Hgone
    by (simpl; apply lookup_delete_eq).
  rewrite !load_access_token_cases, discard_access_token, Hstored, Hgone.
  split; [|split; [|split; [|done]]].
  - intros e -> Hle.
    by rewrite (proj2 (Z.ltb_ge e now)), andb_false_r by done.
  - by intros [-> | ->].
  - intros e -> Hne Hlt.
    by rewrite (proj2 (Z.ltb_lt e now)), (proj2 (Z.eqb_neq e 0)) by done.
Qed.


(** ** Introspection at the authorization server *)

(** C2, on the provider as it is: for every token that is a non-empty
    string, [introspect] raises [AttributeError] at the lookup of
    [validate_access_token], whether the token is stored or not; no JSON
    response is produced. *)
Theorem introspect_raises_attribute_error (form : gmap string form_value)
    (token : string) (now : Z) (self : InMemoryAuthProvider) :
  form !! "token" = Some (FormStr token) →
  token ≠ "" →
  introspect provider_validate_access_token form now self
  = (Raised (AttributeError "validate_access_token"), self).
Proof.
  intros Hform Hne. unfold introspect. rewrite Hform.
  by rewrite (proj2 (String.eqb_neq token "") Hne).
Qed.

(** Without a usable token in the form the route answers inactive. *)
Lemma introspect_no_token (attr : validate_access_token_attr)
    (form : gmap string form_value) (now : Z) (self : InMemoryAuthProvider) :
  form !! "token" = None ∨ form !! "token" = Some UploadFile
  ∨ form !! "token" = Some (FormStr "") →
  introspect attr form now self = (Returned inactive, self).
Proof. unfold introspect. by intros [-> | [-> | ->]]. Qed.

(** ** The token verifier *)

Lemma filter_nonempty_idemp (l : list string) :
  List.filter nonempty (List.filter nonempty l) = List.filter nonempty l.
Proof.
  induction l as [|x l IH]; simpl; [done|].
  destruct (nonempty x) eqn:Hx; simpl; [|done]. by rewrite Hx, IH.
Qed.

Lemma split_from_cut (word s : string) :
  split_from word s = List.filter nonempty (cut_at_whitespace word s).
Proof.
  revert word. induction s as [|c s IH]; intros word; simpl.
  - unfold nonempty. by destruct (String.eqb word "").
  - destruct (isspace c); simpl; [|apply IH].
    unfold nonempty at 1. rewrite IH. by destruct (String.eqb word "").
Qed.

(** [[s for s in scopes.split() if s]] is the splitting of the spec. *)
Lemma scope_list_refines (scopes : string) :
  List.filter nonempty (py_split scopes) = split_discarding_empty scopes.
Proof.
  unfold py_split, split_discarding_empty.
  by rewrite split_from_cut, filter_nonempty_idemp.
Qed.

Section token_verifier_facts.

Variable repr : json → string.
Variable int_of_str : string → option Z.

(** C6: [verify_token] returns nothing when the request raised, when the
    status is not 200, when the body is not JSON or not an object, and
    when [active] is missing or false in Python's sense. When it returns
    a token, the response was a 200 with a true [active], and the scopes
    are the scope string cut at whitespace with the empty pieces dropped
    (none when the field is missing or not a string). With [exp] missing,
    null or an integer such a response does yield a token. *)
Theorem verify_token_fail_closed (token : string) (reply : http_reply) :
  (reply = PostRaised → verify_token repr int_of_str token reply = None)
  ∧ (∀ status_code body,
       reply = Reply status_code body → status_code ≠ 200%Z →
       verify_token repr int_of_str token reply = None)
  ∧ (∀ status_code,
       reply = Reply status_code None →
       verify_token repr int_of_str token reply = None)
  ∧ (∀ status_code v,
       reply = Reply status_code (Some v) → (∀ data, v ≠ JDict data) →
       verify_token repr int_of_str token reply = None)
  ∧ (∀ status_code data,
       reply = Reply status_code (Some (JDict data)) →
       truthy (default (JBool false) (dict_get data "active")) = false →
       verify_token repr int_of_str token reply = None)
  ∧ (∀ access,
       verify_token repr int_of_str token reply = Some access →
       ∃ data,
         reply = Reply 200 (Some (JDict data))
         ∧ truthy (default (JBool false) (dict_get data "active")) = true
         ∧ AccessToken.token access = token
         ∧ AccessToken.scopes access = scopes_of_response data)
  ∧ (∀ data,
       reply = Reply 200 (Some (JDict data)) →
       truthy (default (JBool false) (dict_get data "active")) = true →
       (dict_get data "exp" = None ∨ dict_get data "exp" = Some JNull
        ∨ ∃ n, dict_get data "exp" = Some (JInt n)) →
       is_Some (verify_token repr int_of_str token reply)).
Proof.
  unfold verify_token, verify_token_try.
  split; [by intros ->|].
  split.
  { intros status_code body -> Hne.
    by rewrite (proj2 (Z.eqb_neq status_code 200) Hne). }
  split.
  { intros status_code ->. by destruct (status_code =? 200)%Z. }
  split.
  { intros status_code v -> Hv.
    destruct (status_code =? 200)%Z; simpl; [|done].
    destruct v; try done. by destruct (Hv d). }
  split.
  { intros status_code data -> Hactive.
    destruct (status_code =? 200)%Z; simpl; [|done]. by rewrite Hactive. }
  split.
  { intros access Hsome.
    destruct reply as [|status_code [v|]]; [done| |];
      (destruct (status_code =? 200)%Z eqn:Hstatus; simpl in Hsome; [|done]);
      [|done].
    apply Z.eqb_eq in Hstatus. subst status_code.
    destruct v as [| | | | |l|data]; try done.
    exists data.
    destruct (truthy (default (JBool false) (dict_get data "active")));
      simpl in Hsome; [|done].
    split; [done|]. split; [done|].
    unfold scopes_of_response.
    destruct (match dict_get data "exp" with
              | None | Some JNull => Returned None
              | Some _ => _
              end) as [e|expires_at]; [done|].
    injection Hsome as <-. simpl. split; [done|].
    destruct (dict_get data "scope") as [[]|]; simpl;
      try done; by rewrite ?scope_list_refines. }
  intros data -> Hactive Hexp. simpl. rewrite Hactive. simpl.
  destruct Hexp as [-> | [-> | [n ->]]]; simpl; by eexists.
Qed.

End token_verifier_facts.

(** ** The route over a lookup built on [load_access_token] *)

Lemma mapM_JStr (l : list string) :
  mapM (λ v, match v with JStr s => Some s | _ => None end) (JStr <$> l) = Some l.
Proof.
  apply mapM_Some_2. induction l as [|x l IH]; csimpl; by constructor.
Qed.

(** Had the provider the lookup, the route would answer as section 4.5
    asks: the stored token's client, scopes and expiry under a true
    [active], and the bare inactive answer when the lookup finds nothing. *)
Lemma introspect_over_load_access_token (form : gmap string form_value)
    (token : string) (now : Z) (self : InMemoryAuthProvider) :
  form !! "token" = Some (FormStr token) →
  token ≠ "" →
  introspect (Some (validate_by_load now)) form now self
  = match load_access_token token now self with
    | (Returned (Some access), self') =>
        (Returned (JSONResponse (JDict [
           ("active", JBool true);
           ("client_id", JStr (AccessToken.client_id access));
           ("scope", JStr (py_join " " (AccessToken.scopes access)));
           ("exp", match AccessToken.expires_at access with
                   | Some e => JInt e
                   | None => JNull
                   end);
           ("iat", JInt now)])), self')
    | (Returned None, self') => (Returned inactive, self')
    | (Raised e, self') => (Raised e, self')
    end.
Proof.
  intros Hform Hne. unfold introspect, validate_by_load.
  rewrite Hform, (proj2 (String.eqb_neq token "") Hne).
  step_method.
  destruct (load_access_token token now self) as [[e|[access|]] self'];
    simpl; [done| |done].
  by rewrite mapM_JStr.
Qed.

(** * The properties on the sample data *)

(** The flow of the demo: after [authorize] under [S1], the login returns
    the redirect with the code, the code is redeemed for a token that lasts
    3600 seconds, the token is found while it lasts and is gone afterwards. *)
Example flow_sample :
  ∃ self1 code token self2 access,
    handle_login_callback accept_http
      (login_form "demo_user" "demo_password" "S1") "c1" 100%Q
      provider_with_pending
    = (Returned (RedirectResponse
         (construct_redirect_uri "http://cb" "mcp_c1" "S1") 302), self1)
    ∧ load_authorization_code (sample_client "client-a" None) "mcp_c1" self1
      = (Returned (Some code), self1)
    ∧ exchange_authorization_code (sample_client "client-a" None) code "t1"
        100 self1
      = (Returned token, self2)
    ∧ OAuthToken.expires_in token = Some 3600%Z
    ∧ (load_access_token "mcp_t1" 3700 self2).1 = Returned (Some access)
    ∧ AccessToken.expires_at access = Some 3700%Z
    ∧ (load_access_token "mcp_t1" 3701 self2).1 = Returned None.
Proof.
  eexists _, _, _, _, _.
  split; [vm_compute; reflexivity|]. split; [vm_compute; reflexivity|].
  split; [vm_compute; reflexivity|]. split; [reflexivity|].
  split; [vm_compute; reflexivity|]. split; vm_compute; reflexivity.
Qed.

Lemma register_get_client_roundtrip_sample :
  get_client "client-a"
    (register_client (sample_client "client-a" (Some "s3cret"))
       (register_client (sample_client "client-a" None) sample_provider).2).2
  = (Returned (Some (sample_client "client-a" (Some "s3cret"))),
     (register_client (sample_client "client-a" (Some "s3cret"))
        (register_client (sample_client "client-a" None) sample_provider).2).2).
Proof.
  pose proof (register_get_client_roundtrip (sample_client "client-a" None)
                (sample_client "client-a" (Some "s3cret")) sample_provider
                "client-a") as H.
  simpl in H. destruct H as (_ & _ & _ & H).
  destruct (H eq_refl) as (H1 & _). exact H1.
Defined.

Lemma revoke_token_sample :
  _access_tokens
    (revoke_token (inl (sample_token (Some 5000%Z)))
       (provider_with_token (Some 5000%Z))).2 !! "mcp_t1" = None
  ∧ (revoke_token (inl (sample_token (Some 5000%Z))) sample_provider).2
    = sample_provider.
Proof.
  split.
  - pose proof (revoke_token_idempotent_frame (sample_token (Some 5000%Z))
                  (provider_with_token (Some 5000%Z))) as H.
    cbv zeta in H. destruct H as (_ & _ & H & _). rewrite H.
    apply lookup_delete_eq.
  - pose proof (revoke_token_idempotent_frame (sample_token (Some 5000%Z))
                  sample_provider) as H.
    cbv zeta in H. destruct H as (_ & H & _). apply H. reflexivity.
Defined.

Lemma exchange_code_client_mismatch_sample :
  exchange_authorization_code (sample_client "client-b" None) sample_code
    "t1" 200 provider_with_code
  = (Raised (HTTPException 400 "Invalid authorization code"), provider_with_code).
Proof.
  apply (exchange_code_client_mismatch (sample_client "client-b" None)
           sample_code sample_code "t1" 200 provider_with_code).
  - reflexivity.
  - simpl. discriminate.
Defined.

Lemma exchange_code_single_use_sample :
  exchange_authorization_code (sample_client "client-b" None) sample_code
    "t2" 200
    (after_all accept_http calls_between
       (exchanged (sample_client "client-a" None) sample_code "t1" 100
          provider_with_code))
  = (Raised (HTTPException 400 "Invalid authorization code"),
     after_all accept_http calls_between
       (exchanged (sample_client "client-a" None) sample_code "t1" 100
          provider_with_code)).
Proof.
  refine (proj2 (exchange_code_single_use accept_http
                   (sample_client "client-a" None) (sample_client "client-b" None)
                   sample_code sample_code "t1" "t2" 100 200 provider_with_code
                   (exchanged (sample_client "client-a" None) sample_code "t1"
                      100 provider_with_code)
                   _ calls_between _ eq_refl _)).
  - vm_compute. reflexivity.
  - repeat constructor.
Defined.

(** At the very second of [expires_at] the token is still returned, and it
    stays stored. *)
Lemma load_access_token_at_expires_at :
  AccessToken.expires_at (sample_token (Some 1000%Z)) = Some 1000%Z
  ∧ load_access_token "mcp_t1" 1000 (provider_with_token (Some 1000%Z))
    = (Returned (Some (sample_token (Some 1000%Z))),
       provider_with_token (Some 1000%Z))
  ∧ (load_access_token "mcp_t1" 1000 (provider_with_token (Some 1000%Z))).1
    ≠ Returned None.
Proof. split; [reflexivity|]. split; [vm_compute; reflexivity|]. discriminate. Defined.

Lemma load_access_token_expiry_sample :
  load_access_token "mcp_t1" 1001 (provider_with_token (Some 1000%Z))
  = (Returned None,
     set_access_tokens (delete "mcp_t1") (provider_with_token (Some 1000%Z)))
  ∧ load_access_token "mcp_t1" 1001
      (set_access_tokens (delete "mcp_t1") (provider_with_token (Some 1000%Z)))
    = (Returned None,
       set_access_tokens (delete "mcp_t1") (provider_with_token (Some 1000%Z))).
Proof.
  pose proof (load_access_token_expiry "mcp_t1" 1001 (sample_token (Some 1000%Z))
                (provider_with_token (Some 1000%Z)) eq_refl) as H.
  cbv zeta in H. destruct H as (_ & _ & H & _).
  destruct (H 1000%Z eq_refl) as (H1 & _ & H2); [discriminate|reflexivity|].
  split; [exact H1|exact H2].
Defined.



Lemma introspect_raises_attribute_error_sample :
  introspect provider_validate_access_token {[ "token" := FormStr "mcp_t1" ]}
    1000 (provider_with_token (Some 5000%Z))
  = (Raised (AttributeError "validate_access_token"),
     provider_with_token (Some 5000%Z)).
Proof.
  apply (introspect_raises_attribute_error {[ "token" := FormStr "mcp_t1" ]}
           "mcp_t1" 1000 (provider_with_token (Some 5000%Z))).
  - reflexivity.
  - discriminate.
Defined.


(** A pending entry whose redirect URI is not an http URL: the callback
    with a wrong password raises and changes nothing, the entry is still
    stored, and the callback with the demo credentials that follows raises
    as well, at the validation of the redirect URI. *)
Lemma login_callback_retry_rejected_redirect :
  handle_login_callback accept_http
    (login_form "demo_user" "guess" "S1") "c0" 90%Q provider_with_app_redirect
  = (Raised (HTTPException 401 "Invalid credentials"), provider_with_app_redirect)
  ∧ (state_data.redirect_uri <$> _state_map provider_with_app_redirect !! "S1")
    = Some (Some "myapp://cb")
  ∧ handle_login_callback accept_http
      (login_form "demo_user" "demo_password" "S1") "c1" 100%Q
      provider_with_app_redirect
    = (Raised (ValidationError "myapp://cb"), provider_with_app_redirect).
Proof.
  split; [vm_compute; reflexivity|]. split; vm_compute; reflexivity.
Defined.

Lemma login_callback_failure_atomic_sample :
  handle_login_callback accept_http
    (login_form "demo_user" "guess" "S1") "c0" 90%Q provider_with_pending
  = (Raised (HTTPException 401 "Invalid credentials"), provider_with_pending)
  ∧ ∃ self'',
      handle_login_callback accept_http
        (login_form "demo_user" "demo_password" "S1") "c1" 100%Q
        provider_with_pending
      = (Returned (RedirectResponse
           (construct_redirect_uri "http://cb" "mcp_c1" "S1") 302), self'')
      ∧ _state_map self'' !! "S1" = None
      ∧ is_Some (_auth_codes self'' !! "mcp_c1").
Proof.
  assert (handle_login_callback accept_http
            (login_form "demo_user" "guess" "S1") "c0" 90%Q provider_with_pending
          = (Raised (HTTPException 401 "Invalid credentials"), provider_with_pending))
    as Hfail by (vm_compute; reflexivity).
  split; [exact Hfail|].
  destruct (login_callback_failure_atomic accept_http _ _ _ _ _ _ Hfail)
    as (_ & Hlater).
  apply (Hlater (login_form "demo_user" "demo_password" "S1") "S1" "c1" 100%Q
           {| state_data.redirect_uri := Some "http://cb";
              state_data.code_challenge := Some "C";
              state_data.redirect_uri_provided_explicitly := Some "True";
              state_data.client_id := Some "client-a";
              state_data.resource := None |}
           "http://cb" "C" "client-a" "http://cb"); reflexivity.
Defined.

Lemma verify_token_fail_closed_sample :
  verify_token (λ _, "") (λ _, None) "mcp_t1" (Reply 500 None) = None
  ∧ verify_token (λ _, "") (λ _, None) "mcp_t1"
      (Reply 200 (Some (JDict [("active", JInt 0)]))) = None
  ∧ ∃ access,
      verify_token (λ _, "") (λ _, None) "mcp_t1"
        (Reply 200 (Some (JDict sample_response))) = Some access
      ∧ AccessToken.scopes access = ["user"; "read:things"].
Proof.
  split; [|split].
  - destruct (verify_token_fail_closed (λ _, "") (λ _, None) "mcp_t1"
                (Reply 500 None)) as (_ & H & _).
    apply (H 500%Z None); [reflexivity|discriminate].
  - destruct (verify_token_fail_closed (λ _, "") (λ _, None) "mcp_t1"
                (Reply 200 (Some (JDict [("active", JInt 0)]))))
      as (_ & _ & _ & _ & H & _).
    apply (H 200%Z [("active", JInt 0)]); reflexivity.
  - destruct (verify_token_fail_closed (λ _, "") (λ _, None) "mcp_t1"
                (Reply 200 (Some (JDict sample_response))))
      as (_ & _ & _ & _ & _ & Hscopes & Hsome).
    destruct (Hsome sample_response eq_refl eq_refl) as [access Haccess].
    { right; right. exists 1735689600%Z. reflexivity. }
    exists access. split; [exact Haccess|].
    destruct (Hscopes access Haccess) as (data & Hdata & _ & _ & ->).
    injection Hdata as <-. reflexivity.
Defined.

(** * Further properties *)

(** ** Strings *)

Lemma lstrip_chars_idemp (p : ascii → bool) (s : string) :
  lstrip_chars p (lstrip_chars p s) = lstrip_chars p s.
Proof.
  induction s as [|c s IH]; simpl; [done|].
  destruct (p c) eqn:Hc; [done|]. simpl. by rewrite Hc.
Qed.

Lemma rstrip_chars_idemp (p : ascii → bool) (s : string) :
  rstrip_chars p (rstrip_chars p s) = rstrip_chars p s.
Proof.
  induction s as [|c s IH]; simpl; [done|].
  destruct (rstrip_chars p s) as [|c' r] eqn:Hr.
  - destruct (p c) eqn:Hc; simpl; [done|]. by rewrite Hc.
  - change (rstrip_chars p (String c (String c' r)) = String c (String c' r)).
    change (rstrip_chars p (String c (String c' r)))
      with (match rstrip_chars p (String c' r) with
            | EmptyString => if p c then EmptyString else String c EmptyString
            | r' => String c r'
            end).
    by rewrite IH.
Qed.

(** A string that does not start with a stripped character still does not
    once its tail is stripped. *)
Lemma lstrip_rstrip_chars (p : ascii → bool) (s : string) :
  lstrip_chars p s = s →
  lstrip_chars p (rstrip_chars p s) = rstrip_chars p s.
Proof.
  destruct s as [|c s]; simpl; [done|].
  destruct (p c) eqn:Hc.
  - intros Heq. exfalso.
    assert (String.length (lstrip_chars p s) ≤ String.length s)%nat as Hlen.
    { clear. induction s as [|c s IH]; simpl; [done|].
      destruct (p c); simpl; lia. }
    rewrite Heq in Hlen. simpl in Hlen. lia.
  - intros _. destruct (rstrip_chars p s); simpl; by rewrite Hc.
Qed.

Lemma py_strip_idemp (s : string) : py_strip (py_strip s) = py_strip s.
Proof.
  unfold py_strip.
  rewrite (lstrip_rstrip_chars isspace (lstrip_chars isspace s))
    by apply lstrip_chars_idemp.
  apply rstrip_chars_idemp.
Qed.

Lemma rstrip_chars_snoc (p : ascii → bool) (s : string) (c : ascii) :
  p c = true →
  rstrip_chars p (s ++ String c EmptyString) = rstrip_chars p s.
Proof.
  intros Hc. induction s as [|c' s IH]; simpl; [by rewrite Hc|].
  by rewrite IH.
Qed.

Lemma string_app_assoc (a b c : string) : (a ++ b) ++ c = a ++ (b ++ c).
Proof.
  induction a as [|x a IH]; [done|].
  change (String x ((a ++ b) ++ c) = String x (a ++ (b ++ c))). by f_equal.
Qed.

Lemma string_app_nil_r (a : string) : a ++ "" = a.
Proof.
  induction a as [|x a IH]; [done|].
  change (String x (a ++ "") = String x a). by f_equal.
Qed.

Lemma no_whitespace_app (a b : string) :
  no_whitespace (a ++ b) = no_whitespace a && no_whitespace b.
Proof.
  induction a as [|x a IH]; [done|].
  change (negb (isspace x) && no_whitespace (a ++ b)
          = negb (isspace x) && no_whitespace a && no_whitespace b).
  by rewrite IH, andb_assoc.
Qed.

Lemma nonempty_app_char (word : string) (c : ascii) :
  String.eqb (word ++ String c "") "" = false.
Proof. by destruct word. Qed.

(** The pieces [split] cuts are not empty and hold no whitespace. *)
Lemma split_from_pieces (word s : string) :
  no_whitespace word = true →
  Forall (λ w, nonempty w = true ∧ no_whitespace w = true) (split_from word s).
Proof.
  revert word. induction s as [|c s IH]; intros word Hword; simpl.
  - destruct (String.eqb word "") eqn:Hempty; [done|].
    constructor; [|done]. unfold nonempty. by rewrite Hempty.
  - destruct (isspace c) eqn:Hc.
    + destruct (String.eqb word "") eqn:Hempty; [by apply IH|].
      constructor; [|by apply IH]. unfold nonempty. by rewrite Hempty.
    + apply IH. rewrite no_whitespace_app, Hword. simpl. by rewrite Hc.
Qed.

Lemma split_from_word (word x rest : string) :
  no_whitespace x = true →
  split_from word (x ++ rest) = split_from (word ++ x) rest.
Proof.
  revert word. induction x as [|c x IH]; intros word Hx.
  - by rewrite string_app_nil_r.
  - simpl in Hx. apply andb_true_iff in Hx as [Hc Hx].
    apply negb_true_iff in Hc.
    change (split_from word (String c (x ++ rest))
            = split_from (word ++ String c x) rest).
    simpl. rewrite Hc, IH by done.
    by rewrite string_app_assoc.
Qed.

Lemma split_join_words (l : list string) :
  Forall (λ w, nonempty w = true ∧ no_whitespace w = true) l →
  py_split (py_join " " l) = l.
Proof.
  unfold py_split. induction 1 as [|x l [Hne Hws] Hl IH]; [done|].
  unfold nonempty in Hne. apply negb_true_iff in Hne.
  destruct l as [|y l].
  - simpl. rewrite <- (string_app_nil_r x) at 1.
    rewrite split_from_word by done. change ("" ++ x) with x.
    simpl. by rewrite Hne.
  - change (py_join " " (x :: y :: l)) with (x ++ " " ++ py_join " " (y :: l)).
    rewrite split_from_word by done.
    change (split_from ("" ++ x) (" " ++ py_join " " (y :: l)))
      with (if String.eqb x "" then split_from "" (py_join " " (y :: l))
            else x :: split_from "" (py_join " " (y :: l))).
    by rewrite Hne, IH.
Qed.

Lemma filter_nonempty_all (l : list string) :
  Forall (λ w, nonempty w = true ∧ no_whitespace w = true) l →
  List.filter nonempty l = l.
Proof.
  induction 1 as [|x l [Hne _] _ IH]; simpl; [done|]. by rewrite Hne, IH.
Qed.

(** X12: scopes that are not empty and hold no whitespace survive being
    joined with spaces, as the token response and the introspection answer
    write them, and cut again as the verifier reads them. *)
Theorem scope_join_split_roundtrip (scopes : list string) :
  Forall (λ w, nonempty w = true ∧ no_whitespace w = true) scopes →
  List.filter nonempty (py_split (py_join " " scopes)) = scopes.
Proof.
  intros Hscopes. rewrite split_join_words by done.
  by apply filter_nonempty_all.
Qed.

(** ** The token verifier, field by field *)

Section token_verifier_fields.

Variable repr : json → string.
Variable int_of_str : string → option Z.

(** What a returned token was built from. *)
Lemma verify_token_returned (token : string) (reply : http_reply)
    (access : AccessToken.t) :
  verify_token repr int_of_str token reply = Some access →
  ∃ data expires_at,
    reply = Reply 200 (Some (JDict data))
    ∧ truthy (default (JBool false) (dict_get data "active")) = true
    ∧ match dict_get data "exp" with
      | None | Some JNull => Returned None
      | Some exp =>
          match py_int int_of_str exp with
          | Returned n => Returned (Some n)
          | Raised e => Raised e
          end
      end = Returned expires_at
    ∧ access = {|
        AccessToken.token := token;
        AccessToken.client_id :=
          py_str repr (default (JStr "") (dict_get data "client_id"));
        AccessToken.scopes :=
          match default (JStr "") (dict_get data "scope") with
          | JStr scopes => List.filter nonempty (py_split scopes)
          | _ => []
          end;
        AccessToken.expires_at := expires_at;
        AccessToken.resource :=
          match dict_get data "aud" with
          | Some (JStr aud) => Some aud
          | _ => None
          end |}.
Proof.
  unfold verify_token, verify_token_try. intros Hsome.
  destruct reply as [|status_code [v|]]; [done| |];
    (destruct (status_code =? 200)%Z eqn:Hstatus; simpl in Hsome; [|done]);
    [|done].
  apply Z.eqb_eq in Hstatus. subst status_code.
  destruct v as [| | | | |l|data]; try done.
  destruct (truthy (default (JBool false) (dict_get data "active"))) eqn:Hactive;
    simpl in Hsome; [|done].
  destruct (match dict_get data "exp" with
            | None | Some JNull => Returned None
            | Some _ => _
            end) as [e|expires_at] eqn:Hexp; [done|].
  injection Hsome as <-. by exists data, expires_at.
Qed.

(** X11: every scope of a token the verifier returns is a non-empty string
    without whitespace. *)
Theorem verify_token_scopes_wellformed (token : string) (reply : http_reply)
    (access : AccessToken.t) :
  verify_token repr int_of_str token reply = Some access →
  Forall (λ w, nonempty w = true ∧ no_whitespace w = true)
    (AccessToken.scopes access).
Proof.
  intros Hsome.
  destruct (verify_token_returned token reply access Hsome)
    as (data & expires_at & _ & _ & _ & ->). simpl.
  destruct (default (JStr "") (dict_get data "scope")) as [| | | |scopes| |];
    try done.
  assert (Forall (λ w, nonempty w = true ∧ no_whitespace w = true)
            (py_split scopes)) as Hpieces by by apply split_from_pieces.
  by rewrite filter_nonempty_all.
Qed.

(** X13: in a token the verifier returns, [client_id] is the text of the
    response's [client_id] (empty when missing), [resource] is [aud] when
    that is a string and nothing otherwise, and [expires_at] is [int(exp)],
    or nothing when [exp] is missing or null. A 200 response whose [exp]
    is there, not null, and refused by [int] yields no token, whatever
    [active] says. *)
Theorem verify_token_fields (token : string) (reply : http_reply) :
  (∀ access,
     verify_token repr int_of_str token reply = Some access →
     ∃ data,
       reply = Reply 200 (Some (JDict data))
       ∧ AccessToken.client_id access
         = py_str repr (default (JStr "") (dict_get data "client_id"))
       ∧ AccessToken.resource access
         = match dict_get data "aud" with
           | Some (JStr aud) => Some aud
           | _ => None
           end
       ∧ match dict_get data "exp" with
         | None | Some JNull => AccessToken.expires_at access = None
         | Some exp =>
             ∃ n, py_int int_of_str exp = Returned n
                  ∧ AccessToken.expires_at access = Some n
         end)
  ∧ (∀ status_code data exp e,
       reply = Reply status_code (Some (JDict data)) →
       dict_get data "exp" = Some exp →
       exp ≠ JNull →
       py_int int_of_str exp = Raised e →
       verify_token repr int_of_str token reply = None).
Proof.
  split.
  - intros access Hsome.
    destruct (verify_token_returned token reply access Hsome)
      as (data & expires_at & -> & _ & Hexp & ->). simpl.
    exists data. split; [done|]. split; [done|]. split; [done|].
    destruct (dict_get data "exp") as [exp|]; [|congruence].
    destruct exp as [|b|z|f|str|l|d]; try congruence;
      (destruct (py_int int_of_str _) as [e|n] eqn:Hint; [done|];
       exists n; split; [done|congruence]).
  - intros status_code data exp e -> Hexp Hnull Hint.
    unfold verify_token, verify_token_try.
    destruct (status_code =? 200)%Z; simpl; [|done].
    destruct (truthy (default (JBool false) (dict_get data "active")));
      simpl; [|done].
    rewrite Hexp. destruct exp as [|b|z|f|str|l|d]; try done; by rewrite Hint.
Qed.

End token_verifier_fields.

(** ** The authorization server: how the operations compose *)

(** The response and the provider of an exchange that returns. *)
Lemma exchange_authorization_code_returned (client : OAuthClientInformationFull.t)
    (authorization_code : AuthorizationCode.t) (token_hex : string) (now : Z)
    (self self1 : InMemoryAuthProvider) (token : OAuthToken.t) :
  exchange_authorization_code client authorization_code token_hex now self
  = (Returned token, self1) →
  (∃ stored,
     _auth_codes self !! AuthorizationCode.code authorization_code = Some stored
     ∧ AuthorizationCode.client_id stored
       = OAuthClientInformationFull.client_id client)
  ∧ token = {|
      OAuthToken.access_token := "mcp_" ++ token_hex;
      OAuthToken.token_type := "Bearer";
      OAuthToken.expires_in := Some (_token_lifetime_seconds self);
      OAuthToken.scope :=
        match AuthorizationCode.scopes authorization_code with
        | [] => None
        | scopes => Some (py_join " " scopes)
        end;
      OAuthToken.refresh_token := None |}
  ∧ self1 = exchanged client authorization_code token_hex now self.
Proof.
  unfold exchange_authorization_code. step_method.
  destruct (_auth_codes self !! AuthorizationCode.code authorization_code)
    as [stored|] eqn:Hstored; [|done].
  destruct (String.eqb _ _) eqn:Hclient; simpl; [|done].
  rewrite Hstored. intros [= <- <-].
  apply String.eqb_eq in Hclient. split; [by exists stored|]. by split.
Qed.

(** X10: an exchange attempted by a client the code is not bound to does
    not use the code up: it raises the invalid-grant error and leaves the
    provider as it was, and the client the code is bound to redeems it
    afterwards. *)
Theorem wrong_client_keeps_code_redeemable
    (client other : OAuthClientInformationFull.t)
    (authorization_code stored : AuthorizationCode.t)
    (token_hex token_hex' : string) (now now' : Z)
    (self : InMemoryAuthProvider) :
  _auth_codes self !! AuthorizationCode.code authorization_code = Some stored →
  AuthorizationCode.client_id stored = OAuthClientInformationFull.client_id client →
  OAuthClientInformationFull.client_id other
  ≠ OAuthClientInformationFull.client_id client →
  ∃ self1,
    exchange_authorization_code other authorization_code token_hex' now' self
    = (Raised (HTTPException 400 "Invalid authorization code"), self1)
    ∧ self1 = self
    ∧ ∃ token self2,
        exchange_authorization_code client authorization_code token_hex now self1
        = (Returned token, self2)
        ∧ OAuthToken.access_token token = "mcp_" ++ token_hex
        ∧ _auth_codes self2 !! AuthorizationCode.code authorization_code = None
        ∧ is_Some (_access_tokens self2 !! ("mcp_" ++ token_hex)).
Proof.
  intros Hstored Hclient Hother.
  pose proof (exchange_authorization_code_cases other authorization_code
                token_hex' now' self) as Hfail.
  rewrite Hstored, Hclient in Hfail.
  rewrite (proj2 (String.eqb_neq _ _)) in Hfail by done.
  exists self. split; [exact Hfail|]. split; [done|].
  pose proof (exchange_authorization_code_cases client authorization_code
                token_hex now self) as Hok.
  rewrite Hstored, Hclient, String.eqb_refl in Hok.
  destruct Hok as (token & Htoken & Hok).
  exists token. eexists. split; [exact Hok|]. split; [done|].
  simpl. split; [apply lookup_delete_eq|].
  rewrite lookup_insert_eq. by eexists.
Qed.

(** X5: the token an exchange returns is a bearer token without refresh
    token whose lifetime is the configured one; it carries the scopes and
    the resource of the code object presented; [load_access_token] finds it
    as long as the clock is not past [now + lifetime], and no longer finds
    it afterwards (for a non-zero expiry). *)
Theorem issued_token_lookup_window (client : OAuthClientInformationFull.t)
    (authorization_code : AuthorizationCode.t) (token_hex : string)
    (now later : Z) (self self1 : InMemoryAuthProvider) (token : OAuthToken.t) :
  exchange_authorization_code client authorization_code token_hex now self
  = (Returned token, self1) →
  let expires_at := (now + _token_lifetime_seconds self)%Z in
  let access := {|
    AccessToken.token := "mcp_" ++ token_hex;
    AccessToken.client_id := OAuthClientInformationFull.client_id client;
    AccessToken.scopes := AuthorizationCode.scopes authorization_code;
    AccessToken.expires_at := Some expires_at;
    AccessToken.resource := AuthorizationCode.resource authorization_code |} in
  OAuthToken.token_type token = "Bearer"
  ∧ OAuthToken.refresh_token token = None
  ∧ OAuthToken.expires_in token = Some (_token_lifetime_seconds self)
  ∧ ((later ≤ expires_at)%Z →
     load_access_token (OAuthToken.access_token token) later self1
     = (Returned (Some access), self1))
  ∧ ((expires_at < later)%Z → expires_at ≠ 0%Z →
     (load_access_token (OAuthToken.access_token token) later self1).1
     = Returned None).
Proof.
  intros Hreturned expires_at access.
  destruct (exchange_authorization_code_returned _ _ _ _ _ _ _ Hreturned)
    as (_ & -> & ->).
  split; [done|]. split; [done|]. split; [done|].
  rewrite !load_access_token_cases. simpl. rewrite lookup_insert_eq. simpl.
  fold expires_at. split.
  - intros Hle. by rewrite (proj2 (Z.ltb_ge expires_at later)), andb_false_r.
  - intros Hlt Hne.
    by rewrite (proj2 (Z.ltb_lt expires_at later)),
      (proj2 (Z.eqb_neq expires_at 0)).
Qed.

(** X6: after [revoke_token] of an access token, [load_access_token] of its
    value returns nothing, at any time; the lookup of any other value
    answers as before the revocation. *)
Theorem revoked_token_not_loaded (access : AccessToken.t) (k : string)
    (now : Z) (self : InMemoryAuthProvider) :
  let self1 := (revoke_token (inl access) self).2 in
  load_access_token (AccessToken.token access) now self1 = (Returned None, self1)
  ∧ (k ≠ AccessToken.token access →
     (load_access_token k now self1).1 = (load_access_token k now self).1).
Proof.
  intros self1. subst self1. unfold revoke_token.
  rewrite discard_access_token, !load_access_token_cases.
  destruct (_access_tokens self !! AccessToken.token access) as [a|] eqn:Ha;
    simpl.
  - rewrite lookup_delete_eq. split; [done|]. intros Hne.
    rewrite lookup_delete_ne by done.
    destruct (_access_tokens self !! k) as [b|]; [|done].
    by destruct (match AccessToken.expires_at b with Some _ => _ | None => _ end).
  - by rewrite Ha.
Qed.

Lemma str_of_bool_roundtrip (b : bool) :
  bool_decide (Some (str_of_bool b) = Some "True") = b.
Proof. by destruct b. Qed.

Lemma login_page_cases (state : option string) (self : InMemoryAuthProvider) :
  login_page state self
  = match state with
    | Some s =>
        if String.eqb s ""
        then (Raised (HTTPException 400 "Missing state parameter"), self)
        else
          match _state_map self !! s with
          | Some _ => (Returned (HTMLResponse s), self)
          | None =>
              (Raised (HTTPException 400 "Invalid or missing state parameter"),
               self)
          end
    | None => (Raised (HTTPException 400 "Missing state parameter"), self)
    end.
Proof.
  destruct state as [s|]; [|done]. unfold login_page.
  destruct (String.eqb s "") eqn:Hs; [done|].
  unfold get_login_page. step_method. rewrite Hs. simpl.
  by destruct (_state_map self !! s).
Qed.

Section authorization_flow.

Variable AnyHttpUrl : string → option string.

(** X1: the login page of a state is served right after [authorize] has
    stored that state, and is refused with a 400 once a login callback for
    the state has returned; it is refused with a 400 as well when the query
    has no state or an empty one. The route never changes the provider. *)
Theorem login_page_between_authorize_and_login :
  (∀ client params token_urlsafe self,
     let s := py_or (AuthorizationParams.state params) token_urlsafe in
     let self1 := (authorize client params token_urlsafe self).2 in
     s ≠ "" →
     login_page (Some s) self1 = (Returned (HTMLResponse s), self1))
  ∧ (∀ form token_hex now self response self1 s,
       handle_login_callback AnyHttpUrl form token_hex now self
       = (Returned response, self1) →
       form !! "state" = Some (FormStr s) →
       ∃ detail,
         login_page (Some s) self1 = (Raised (HTTPException 400 detail), self1))
  ∧ (∀ state self, (login_page state self).2 = self)
  ∧ (∀ self,
       login_page None self
       = (Raised (HTTPException 400 "Missing state parameter"), self)
       ∧ login_page (Some "") self
         = (Raised (HTTPException 400 "Missing state parameter"), self)).
Proof.
  split; [|split; [|split]].
  - intros client params token_urlsafe self s self1 Hs.
    rewrite login_page_cases.
    rewrite (proj2 (String.eqb_neq s "")) by done.
    subst self1. simpl. fold s. by rewrite lookup_insert_eq.
  - intros form token_hex now self response self1 s Hreturned Hs.
    destruct (handle_login_callback_cases AnyHttpUrl form token_hex now self)
      as [[e He]|(s0&d&r&cc&ci&u&_&_&Hs0&_&_&_&_&_&Hrun)]; [congruence|].
    assert (s0 = s) as -> by congruence.
    rewrite Hrun in Hreturned. injection Hreturned as _ <-.
    rewrite login_page_cases. destruct (String.eqb s ""); [by eexists|].
    simpl. rewrite lookup_delete_eq. by eexists.
  - intros state self. rewrite login_page_cases.
    destruct state as [s|]; [|done].
    destruct (String.eqb s ""); [done|]. by destruct (_state_map self !! s).
  - intros self. by rewrite !login_page_cases.
Qed.

(** X2: on any provider [authorize] returns, without raising, the login
    URL with the state it chose and the client, and its only effect is to
    store the entry of the request under that state, the other stores and
    the configuration staying as they were; a second [authorize] under the
    same state replaces the first entry, and the provider is then the one
    the second call alone gives. *)
Theorem authorize_overwrites_state
    (client1 client2 : OAuthClientInformationFull.t)
    (params1 params2 : AuthorizationParams.t) (rnd1 rnd2 : string)
    (self : InMemoryAuthProvider) :
  let s1 := py_or (AuthorizationParams.state params1) rnd1 in
  let s := py_or (AuthorizationParams.state params2) rnd2 in
  let self1 := (authorize client1 params1 rnd1 self).2 in
  let self2 := (authorize client2 params2 rnd2 self1).2 in
  authorize client1 params1 rnd1 self
  = (Returned (_login_url self ++ "?state=" ++ s1 ++ "&client_id="
               ++ OAuthClientInformationFull.client_id client1),
     set_state_map
       <[s1 := {|
           state_data.redirect_uri :=
             Some (AuthorizationParams.redirect_uri params1);
           state_data.code_challenge :=
             Some (AuthorizationParams.code_challenge params1);
           state_data.redirect_uri_provided_explicitly :=
             Some (str_of_bool
                     (AuthorizationParams.redirect_uri_provided_explicitly params1));
           state_data.client_id :=
             Some (OAuthClientInformationFull.client_id client1);
           state_data.resource := AuthorizationParams.resource params1 |}]>
       self)
  ∧ _clients self1 = _clients self
  ∧ _auth_codes self1 = _auth_codes self
  ∧ _access_tokens self1 = _access_tokens self
  ∧ (∀ k, k ≠ s1 → _state_map self1 !! k = _state_map self !! k)
  ∧ (s1 = s →
     (authorize client2 params2 rnd2 self1).1
     = Returned (_login_url self ++ "?state=" ++ s ++ "&client_id="
                 ++ OAuthClientInformationFull.client_id client2)
     ∧ self2 = (authorize client2 params2 rnd2 self).2
     ∧ (state_data.client_id <$> _state_map self2 !! s)
       = Some (Some (OAuthClientInformationFull.client_id client2))
     ∧ _clients self2 = _clients self
     ∧ _auth_codes self2 = _auth_codes self
     ∧ _access_tokens self2 = _access_tokens self).
Proof.
  intros s1 s self1 self2. subst self1 self2.
  split; [reflexivity|].
  unfold authorize. step_method. fold s1 s.
  split; [done|]. split; [done|]. split; [done|]. split.
  - intros k Hk. by rewrite lookup_insert_ne.
  - intros Hsame. rewrite Hsame.
    split; [done|]. split.
    + unfold set_state_map. simpl. by rewrite insert_insert_eq.
    + by rewrite lookup_insert_eq.
Qed.

(** X3: what [authorize] is given comes back in the code: after
    [authorize] and a login callback with the demo credentials for the
    state chosen, the redirect goes to the redirect URI with the new code
    and the state, and the code stored under that value is bound to the
    client and holds the challenge, the validated redirect URI, the
    explicit-redirect flag and the resource of the request, no scopes, and
    an expiry 300 seconds after the callback's clock. It needs the redirect
    URI to pass [AnyHttpUrl]. *)
Theorem authorize_login_code_roundtrip
    (client : OAuthClientInformationFull.t) (params : AuthorizationParams.t)
    (token_urlsafe token_hex url : string) (now : Q)
    (form : gmap string form_value) (self : InMemoryAuthProvider) :
  let s := py_or (AuthorizationParams.state params) token_urlsafe in
  let self1 := (authorize client params token_urlsafe self).2 in
  AnyHttpUrl (AuthorizationParams.redirect_uri params) = Some url →
  form !! "username" = Some (FormStr (_demo_username self)) →
  form !! "password" = Some (FormStr (_demo_password self)) →
  form !! "state" = Some (FormStr s) →
  ∃ self2,
    handle_login_callback AnyHttpUrl form token_hex now self1
    = (Returned (RedirectResponse
         (construct_redirect_uri (AuthorizationParams.redirect_uri params)
            ("mcp_" ++ token_hex) s) 302), self2)
    ∧ load_authorization_code client ("mcp_" ++ token_hex) self2
      = (Returned (Some {|
           AuthorizationCode.code := "mcp_" ++ token_hex;
           AuthorizationCode.scopes := [];
           AuthorizationCode.expires_at := (now + 300)%Q;
           AuthorizationCode.client_id :=
             OAuthClientInformationFull.client_id client;
           AuthorizationCode.code_challenge :=
             AuthorizationParams.code_challenge params;
           AuthorizationCode.redirect_uri := url;
           AuthorizationCode.redirect_uri_provided_explicitly :=
             AuthorizationParams.redirect_uri_provided_explicitly params;
           AuthorizationCode.resource := AuthorizationParams.resource params |}),
         self2)
    ∧ _state_map self2 !! s = None.
Proof.
  intros s self1 Hurl Hu Hp Hs.
  eexists. split.
  - eapply (handle_login_callback_success AnyHttpUrl form s token_hex); try done.
    + subst self1. simpl. fold s. apply lookup_insert_eq.
    + done.
    + done.
    + done.
  - split; [|simpl; apply lookup_delete_eq].
    unfold load_authorization_code, gets. simpl.
    rewrite lookup_insert_eq. unfold issued_code. simpl.
    by rewrite str_of_bool_roundtrip.
Qed.

(** X9: a login callback returns only when the form carries exactly the
    demo credentials and a state that is pending; it then adds one code,
    under the value drawn, bound to the client of the pending entry,
    deletes that entry, and leaves clients and access tokens alone. *)
Theorem login_callback_requires_credentials (form : gmap string form_value)
    (token_hex : string) (now : Q) (self self1 : InMemoryAuthProvider)
    (response : Response) :
  handle_login_callback AnyHttpUrl form token_hex now self
  = (Returned response, self1) →
  form !! "username" = Some (FormStr (_demo_username self))
  ∧ form !! "password" = Some (FormStr (_demo_password self))
  ∧ ∃ s data code,
      form !! "state" = Some (FormStr s)
      ∧ _state_map self !! s = Some data
      ∧ state_data.client_id data = Some (AuthorizationCode.client_id code)
      ∧ _auth_codes self1 = <["mcp_" ++ token_hex := code]> (_auth_codes self)
      ∧ _state_map self1 = delete s (_state_map self)
      ∧ _clients self1 = _clients self
      ∧ _access_tokens self1 = _access_tokens self.
Proof.
  intros Hreturned.
  destruct (handle_login_callback_cases AnyHttpUrl form token_hex now self)
    as [[e He]|(s&d&r&cc&ci&u&Hu&Hp&Hs&Hd&_&_&Hci&_&Hrun)]; [congruence|].
  rewrite Hrun in Hreturned. injection Hreturned as _ <-.
  split; [done|]. split; [done|].
  exists s, d. eexists. by repeat split.
Qed.

End authorization_flow.

(** ** What holds after every sequence of calls *)

Section reachable.

Variable AnyHttpUrl : string → option string.

Lemma prefix_mcp (hex : string) : String.prefix "mcp_" ("mcp_" ++ hex) = true.
Proof. by destruct hex. Qed.

Lemma well_keyed_after (c : call) (self : InMemoryAuthProvider) :
  well_keyed self → well_keyed (after AnyHttpUrl c self).
Proof.
  intros (Hclients & Hcodes & Htokens).
  destruct c as [id|info|cl params rnd|st|form token_hex now|cl code
                |client authorization_code token_hex now|cl rt|cl rt scopes
                |token now|token|form now]; simpl; try done.
  - split; [|done]. intros k client. simpl.
    rewrite lookup_insert. case_decide; [by intros [= <-]|by apply Hclients].
  - by rewrite get_login_page_provider.
  - destruct (handle_login_callback_cases AnyHttpUrl form token_hex now self)
      as [[e ->]|(s&d&r&cc&ci&u&_&_&_&_&_&_&_&_&->)]; [done|].
    split; [done|]. split; [|done]. intros k code. simpl.
    rewrite lookup_insert. case_decide; [|by apply Hcodes].
    intros [= <-]. subst k. split; [done|]. split; [apply prefix_mcp|done].
  - pose proof (exchange_authorization_code_cases client authorization_code
                  token_hex now self) as H.
    destruct (_auth_codes self !! AuthorizationCode.code authorization_code);
      [destruct (String.eqb _ _); [destruct H as (tok&_&->)|by rewrite H]
      |by rewrite H].
    split; [done|]. split; simpl.
    + intros k code. rewrite lookup_delete. case_decide; [done|by apply Hcodes].
    + intros k access. rewrite lookup_insert. case_decide; [|by apply Htokens].
      intros [= <-]. subst k. split; [done|]. split; [apply prefix_mcp|by eexists].
  - destruct (load_access_token_provider token now self) as [->| ->]; [done|].
    split; [done|]. split; [done|]. intros k access. simpl.
    rewrite lookup_delete. case_decide; [done|by apply Htokens].
  - destruct (revoke_token_provider token self) as [->|[k0 ->]]; [done|].
    split; [done|]. split; [done|]. intros k access. simpl.
    rewrite lookup_delete. case_decide; [done|by apply Htokens].
  - by rewrite introspect_provider.
Qed.

Lemma well_keyed_after_all (cs : list call) (self : InMemoryAuthProvider) :
  well_keyed self → well_keyed (after_all AnyHttpUrl cs self).
Proof.
  revert self. induction cs as [|c cs IH]; intros self Hself; simpl; [done|].
  apply IH. by apply well_keyed_after.
Qed.

Lemma well_keyed_init (issuer_url demo_username demo_password : string)
    (token_lifetime_seconds : Z) :
  well_keyed (InMemoryAuthProvider_init issuer_url demo_username demo_password
                token_lifetime_seconds).
Proof.
  unfold well_keyed, InMemoryAuthProvider_init. simpl.
  split; [|split]; intros k x; by rewrite lookup_empty.
Qed.

(** X7: after any sequence of calls on a provider just constructed, every
    client is stored under its [client_id], every code under its [code] and
    every access token under its [token]; code and token values start with
    [mcp_]; every stored code has an empty scope list and every stored
    access token has an expiry. *)
Theorem stores_keyed_by_identity (cs : list call)
    (issuer_url demo_username demo_password : string)
    (token_lifetime_seconds : Z) :
  well_keyed
    (after_all AnyHttpUrl cs
       (InMemoryAuthProvider_init issuer_url demo_username demo_password
          token_lifetime_seconds)).
Proof. apply well_keyed_after_all, well_keyed_init. Qed.

(** X20: through the flow no scope is ever granted: on a provider reached
    by any calls from a fresh one, a code as [load_authorization_code]
    returns it has no scopes, and its exchange returns a token response
    without [scope] and stores an access token with an empty scope list. *)
Theorem flow_tokens_carry_no_scopes (cs : list call)
    (issuer_url demo_username demo_password : string)
    (token_lifetime_seconds : Z)
    (client : OAuthClientInformationFull.t) (k token_hex : string) (now : Z)
    (code : AuthorizationCode.t) (token : OAuthToken.t)
    (self1 : InMemoryAuthProvider) :
  let self :=
    after_all AnyHttpUrl cs
      (InMemoryAuthProvider_init issuer_url demo_username demo_password
         token_lifetime_seconds) in
  (load_authorization_code client k self).1 = Returned (Some code) →
  exchange_authorization_code client code token_hex now self
  = (Returned token, self1) →
  AuthorizationCode.scopes code = []
  ∧ OAuthToken.scope token = None
  ∧ (AccessToken.scopes <$> _access_tokens self1 !! OAuthToken.access_token token)
    = Some [].
Proof.
  intros self Hload Hexchange.
  assert (well_keyed self) as (_ & Hcodes & _)
    by apply well_keyed_after_all, well_keyed_init.
  unfold load_authorization_code, gets in Hload. simpl in Hload.
  injection Hload as Hload.
  destruct (Hcodes k code Hload) as (_ & _ & Hscopes).
  destruct (exchange_authorization_code_returned _ _ _ _ _ _ _ Hexchange)
    as (_ & -> & ->).
  simpl. by rewrite Hscopes, lookup_insert_eq.
Qed.

(** One call keeps the configuration, and changes the registry only by a
    registration. *)
Lemma after_configuration (c : call) (self : InMemoryAuthProvider) :
  _demo_username (after AnyHttpUrl c self) = _demo_username self
  ∧ _demo_password (after AnyHttpUrl c self) = _demo_password self
  ∧ _token_lifetime_seconds (after AnyHttpUrl c self) = _token_lifetime_seconds self
  ∧ _login_url (after AnyHttpUrl c self) = _login_url self
  ∧ _login_callback_url (after AnyHttpUrl c self) = _login_callback_url self
  ∧ (_clients (after AnyHttpUrl c self) = _clients self
     ∨ ∃ info,
         c = call_register_client info
         ∧ _clients (after AnyHttpUrl c self)
           = <[OAuthClientInformationFull.client_id info := info]> (_clients self)).
Proof.
  destruct c as [id|info|cl params rnd|st|form token_hex now|cl code
                |client authorization_code token_hex now|cl rt|cl rt scopes
                |token now|token|form now]; simpl;
    try (by repeat split; left).
  - repeat split. right. by exists info.
  - rewrite get_login_page_provider. by repeat split; left.
  - destruct (handle_login_callback_cases AnyHttpUrl form token_hex now self)
      as [[e ->]|(s&d&r&cc&ci&u&_&_&_&_&_&_&_&_&->)]; by repeat split; left.
  - pose proof (exchange_authorization_code_cases client authorization_code
                  token_hex now self) as H.
    destruct (_auth_codes self !! AuthorizationCode.code authorization_code);
      [destruct (String.eqb _ _); [destruct H as (tok&_&->)|rewrite H]
      |rewrite H]; by repeat split; left.
  - destruct (load_access_token_provider token now self) as [->| ->];
      by repeat split; left.
  - destruct (revoke_token_provider token self) as [->|[k0 ->]];
      by repeat split; left.
  - rewrite introspect_provider. by repeat split; left.
Qed.

(** X8: no sequence of calls changes the demo credentials, the token
    lifetime or the login URLs; a registered client is never removed (it
    stays registered, possibly replaced by a later registration under its
    id); and without a registration among the calls the registry is
    unchanged. *)
Theorem configuration_and_clients_kept (cs : list call)
    (self : InMemoryAuthProvider) :
  let self' := after_all AnyHttpUrl cs self in
  _demo_username self' = _demo_username self
  ∧ _demo_password self' = _demo_password self
  ∧ _token_lifetime_seconds self' = _token_lifetime_seconds self
  ∧ _login_url self' = _login_url self
  ∧ _login_callback_url self' = _login_callback_url self
  ∧ (∀ k, is_Some (_clients self !! k) → is_Some (_clients self' !! k))
  ∧ (Forall (λ c, registers_client c = false) cs → _clients self' = _clients self).
Proof.
  revert self. induction cs as [|c cs IH]; intros self; simpl; [done|].
  destruct (IH (after AnyHttpUrl c self)) as (H1&H2&H3&H4&H5&H6&H7).
  destruct (after_configuration c self) as (A1&A2&A3&A4&A5&A6).
  rewrite H1, H2, H3, H4, H5, A1, A2, A3, A4, A5.
  repeat (split; [done|]). split.
  - intros k Hk. apply H6.
    destruct A6 as [-> | (info & _ & ->)]; [done|].
    rewrite lookup_insert. by case_decide.
  - intros Hcs. inversion Hcs as [|? ? Hc Hcs']; subst.
    rewrite H7 by done.
    destruct A6 as [-> | (info & -> & _)]; done.
Qed.

End reachable.

(** X4: on the provider as it is, the introspection route never answers
    that a token is active: it returns a response only when the form has no
    token, an empty one or an uploaded file, and that response is the bare
    inactive one; in every case the provider is left as it was. *)
Theorem introspect_never_active (form : gmap string form_value) (now : Z)
    (self : InMemoryAuthProvider) :
  (introspect provider_validate_access_token form now self).2 = self
  ∧ ∀ response,
      (introspect provider_validate_access_token form now self).1
      = Returned response →
      response = inactive
      ∧ (form !! "token" = None ∨ form !! "token" = Some UploadFile
         ∨ form !! "token" = Some (FormStr "")).
Proof.
  unfold introspect.
  destruct (form !! "token") as [[token|]|]; simpl.
  - destruct (String.eqb token "") eqn:Htoken; simpl.
    + apply String.eqb_eq in Htoken. subst token.
      split; [done|]. intros response [= <-]. split; [done|]. by right; right.
    + by split.
  - split; [done|]. intros response [= <-]. split; [done|]. by right; left.
  - split; [done|]. intros response [= <-]. split; [done|]. by left.
Qed.

(** ** The tools of the resource server *)

Lemma py_in_In (x : string) (l : list string) : py_in x l = true ↔ In x l.
Proof.
  unfold py_in. rewrite existsb_exists. split.
  - intros (y & Hy & Heq). apply String.eqb_eq in Heq. by subst.
  - intros Hx. exists x. split; [done|]. apply String.eqb_refl.
Qed.

(** X14: a token read off the request has no whitespace at either end; it
    comes from the first header named [authorization], in any case of the
    letters, whose value starts with [bearer ] in any case, and is that
    value past its seventh character, stripped. Headers after the first
    [authorization] header are not looked at. *)
Theorem extract_bearer_token_trimmed (ctx : Context) :
  (∀ token,
     _extract_bearer_token_from_context ctx = Some token →
     py_strip token = token
     ∧ ∃ headers auth_header,
         ctx = context_request headers
         ∧ first_authorization headers = Some auth_header
         ∧ String.prefix "bearer " (py_lower auth_header) = true
         ∧ token = py_strip (slice_from 7 auth_header))
  ∧ (∀ k v headers,
       py_lower k = "authorization" →
       _extract_bearer_token_from_context (context_request ((k, v) :: headers))
       = _extract_bearer_token_from_context (context_request [(k, v)])).
Proof.
  split.
  - intros token Hsome. destruct ctx as [| | | |headers]; try done.
    simpl in Hsome.
    destruct (first_authorization headers) as [auth_header|] eqn:Hfirst;
      [|done].
    destruct (String.eqb auth_header "") eqn:Hempty; [done|].
    destruct (String.prefix "bearer " (py_lower auth_header)) eqn:Hprefix;
      [|done].
    injection Hsome as <-. split; [apply py_strip_idemp|].
    by exists headers, auth_header.
  - intros k v headers Hk. simpl. by rewrite Hk.
Qed.

(** X15: [_require_authenticated] lets a call through only for a non-empty
    token that a configured verifier accepts and whose scopes hold every
    required scope; it answers 403 with the missing scopes exactly when the
    verifier accepted the token and some required scope is not among its
    scopes; in every other case it answers with one of the three 401
    messages. *)
Theorem require_authenticated_decision (ctx : Context)
    (verifier : option (string → option AccessToken.t))
    (required_scopes : option (list string)) :
  match _require_authenticated ctx verifier required_scopes with
  | Done _ =>
      ∃ token verify_token access,
        _extract_bearer_token_from_context ctx = Some token
        ∧ token ≠ ""
        ∧ verifier = Some verify_token
        ∧ verify_token token = Some access
        ∧ ∀ s, In s (default [] required_scopes) →
               In s (AccessToken.scopes access)
  | Denied (PermissionError_missing_scopes missing) =>
      ∃ token verify_token access,
        _extract_bearer_token_from_context ctx = Some token
        ∧ verifier = Some verify_token
        ∧ verify_token token = Some access
        ∧ missing ≠ []
        ∧ ∀ s, In s missing
               ↔ In s (default [] required_scopes)
                 ∧ ¬ In s (AccessToken.scopes access)
  | Denied (PermissionError_text message) =>
      (message = "401 Unauthorized: missing Bearer token"
       ∧ (_extract_bearer_token_from_context ctx = None
          ∨ _extract_bearer_token_from_context ctx = Some ""))
      ∨ (message = "401 Unauthorized: no verifier configured"
         ∧ verifier = None)
      ∨ (message = "401 Unauthorized: invalid or expired token"
         ∧ ∃ token verify_token,
             _extract_bearer_token_from_context ctx = Some token
             ∧ verifier = Some verify_token
             ∧ verify_token token = None)
  end.
Proof.
  unfold _require_authenticated.
  destruct (_extract_bearer_token_from_context ctx) as [token|];
    [|by left; split; [|left]].
  destruct (String.eqb token "") eqn:Hempty.
  { apply String.eqb_eq in Hempty. subst. by left; split; [|right]. }
  apply String.eqb_neq in Hempty.
  destruct verifier as [verify_token|]; [|by right; left].
  destruct (verify_token token) as [access|] eqn:Haccess;
    [|right; right; split; [done|]; by exists token, verify_token].
  destruct required_scopes as [[|r required]|];
    [by exists token, verify_token, access
    | |by exists token, verify_token, access].
  destruct (List.filter (λ s, negb (py_in s (AccessToken.scopes access)))
              (r :: required)) as [|m missing] eqn:Hmissing.
  - exists token, verify_token, access. repeat (split; [done|]).
    intros s Hs. simpl in Hs.
    destruct (py_in s (AccessToken.scopes access)) eqn:Hin;
      [by apply py_in_In|].
    assert (In s (List.filter
                    (λ s, negb (py_in s (AccessToken.scopes access)))
                    (r :: required))) as Hfilter.
    { apply filter_In. split; [done|]. by rewrite Hin. }
    by rewrite Hmissing in Hfilter.
  - exists token, verify_token, access. repeat (split; [done|]).
    intros s. rewrite <- Hmissing, filter_In, negb_true_iff.
    split.
    + intros [Hs Hnot]. split; [done|]. rewrite <- py_in_In. congruence.
    + intros [Hs Hnot]. split; [done|].
      rewrite <- py_in_In in Hnot. by destruct (py_in s _).
Qed.

Section protected_tool.

Variable datetime : Type.
Variable isoformat : datetime → string.
Variable timestamp : datetime → pyfloat.
Variable strftime : datetime → string.
Variable repr : json → string.
Variable int_of_str : string → option Z.
Variable post : string → string → http_reply.

(** X16: with auth disabled in the settings there is no verifier, so while
    [server_time] is listed among the tools that require auth every call of
    it is refused with a 401, with or without a bearer token. *)
Theorem server_time_without_verifier (settings : ResourceServerSettings.t)
    (ctx : Context) (now : datetime) :
  ResourceServerSettings.auth_enabled settings = false →
  py_in "server_time" (ResourceServerSettings.require_auth_for_tools settings)
  = true →
  server_time datetime isoformat timestamp strftime settings
    (token_verifier repr int_of_str post settings) ctx now
  = Denied (PermissionError_text "401 Unauthorized: missing Bearer token")
  ∨ server_time datetime isoformat timestamp strftime settings
      (token_verifier repr int_of_str post settings) ctx now
    = Denied (PermissionError_text "401 Unauthorized: no verifier configured").
Proof.
  intros Hauth Hlisted. unfold server_time, token_verifier.
  rewrite Hauth, Hlisted. unfold _require_authenticated.
  destruct (_extract_bearer_token_from_context ctx) as [token|]; [|by left].
  destruct (String.eqb token ""); [by left|by right].
Qed.

(** X17: when [server_time] answers with the time, either it is not listed
    as requiring auth, or auth is enabled, the request carried a non-empty
    bearer token, and the introspection request for that token, sent to the
    configured server's [/introspect], came back with status 200 and a body
    whose [active] is true. *)
Theorem protected_tool_fails_closed (settings : ResourceServerSettings.t)
    (ctx : Context) (now : datetime) (report : json) :
  server_time datetime isoformat timestamp strftime settings
    (token_verifier repr int_of_str post settings) ctx now
  = Done report →
  py_in "server_time" (ResourceServerSettings.require_auth_for_tools settings)
  = false
  ∨ (ResourceServerSettings.auth_enabled settings = true
     ∧ ∃ token data,
         _extract_bearer_token_from_context ctx = Some token
         ∧ token ≠ ""
         ∧ post (introspection_url
                   (ResourceServerSettings.auth_server_url settings)) token
           = Reply 200 (Some (JDict data))
         ∧ truthy (default (JBool false) (dict_get data "active")) = true).
Proof.
  unfold server_time, token_verifier, _require_authenticated.
  destruct (py_in "server_time" _); [|by left]. intros Hdone. right.
  destruct (_extract_bearer_token_from_context ctx) as [token|]; [|done].
  destruct (String.eqb token "") eqn:Hempty; [done|].
  apply String.eqb_neq in Hempty.
  destruct (ResourceServerSettings.auth_enabled settings); [|done].
  split; [done|].
  destruct (verify_token repr int_of_str token _) as [access|] eqn:Haccess;
    [|done].
  destruct (verify_token_returned repr int_of_str token _ access Haccess)
    as (data & expires_at & Hreply & Hactive & _).
  by exists token, data.
Qed.

End protected_tool.

(** ** URLs and greetings *)

Lemma rstrip_chars_length (p : ascii → bool) (s : string) :
  (String.length (rstrip_chars p s) ≤ String.length s)%nat.
Proof.
  induction s as [|c s IH]; simpl; [done|].
  destruct (rstrip_chars p s); [destruct (p c)|]; simpl in *; lia.
Qed.

Lemma string_length_snoc (s : string) (c : ascii) :
  String.length (s ++ String c "") = S (String.length s).
Proof.
  induction s as [|x s IH]; [done|].
  change (S (String.length (s ++ String c "")) = S (S (String.length s))).
  by rewrite IH.
Qed.

(** X18: a slash at the end of the configured URL does not matter: the
    provider built from the issuer URL and the introspection URL of the
    verifier are the same with and without it; the stripped base never ends
    in a slash, so the URLs have a single slash before their path; the
    callback URL is the login URL followed by [/callback]. *)
Theorem trailing_slash_insensitive (url demo_username demo_password : string)
    (token_lifetime_seconds : Z) :
  introspection_url (url ++ "/") = introspection_url url
  ∧ InMemoryAuthProvider_init (url ++ "/") demo_username demo_password
      token_lifetime_seconds
    = InMemoryAuthProvider_init url demo_username demo_password
        token_lifetime_seconds
  ∧ (∀ r, rstrip_slash url ≠ r ++ "/")
  ∧ _login_callback_url
      (InMemoryAuthProvider_init url demo_username demo_password
         token_lifetime_seconds)
    = _login_url
        (InMemoryAuthProvider_init url demo_username demo_password
           token_lifetime_seconds) ++ "/callback".
Proof.
  assert (rstrip_slash (url ++ "/") = rstrip_slash url) as Hstrip
    by by apply rstrip_chars_snoc.
  unfold introspection_url, InMemoryAuthProvider_init. rewrite Hstrip.
  split; [done|]. split; [done|]. split.
  - intros r Hr.
    assert (rstrip_slash (rstrip_slash url) = rstrip_slash url) as Hidemp
      by apply rstrip_chars_idemp.
    rewrite Hr in Hidemp at 1. unfold rstrip_slash in Hidemp, Hr.
    rewrite rstrip_chars_snoc in Hidemp by done.
    pose proof (rstrip_chars_length is_slash r) as Hlen.
    rewrite Hidemp, Hr, string_length_snoc in Hlen. lia.
  - simpl. by rewrite string_app_assoc.
Qed.

(** X19: [greet] always answers [Hello, ] followed by a name and an ending
    that are both not empty; the name is the argument without the
    whitespace around it, or [there] when nothing else is left; the ending
    is the punctuation given, or [!] when it is missing or empty. *)
Theorem greet_never_blank (name : string) (punctuation : option string) :
  ∃ safe_name ending,
    greet name punctuation = "Hello, " ++ safe_name ++ ending
    ∧ safe_name ≠ ""
    ∧ py_strip safe_name = safe_name
    ∧ ending ≠ ""
    ∧ (py_strip name = "" → safe_name = "there")
    ∧ (py_strip name ≠ "" → safe_name = py_strip name)
    ∧ (punctuation = None ∨ punctuation = Some "" → ending = "!")
    ∧ (∀ p, punctuation = Some p → p ≠ "" → ending = p).
Proof.
  set (safe_name := if String.eqb (py_strip name) "" then "there"
                    else py_strip name).
  set (ending := if String.eqb (default "!" punctuation) "" then "!"
                 else default "!" punctuation).
  exists safe_name, ending. split; [done|].
  assert (safe_name ≠ "" ∧ py_strip safe_name = safe_name
          ∧ (py_strip name = "" → safe_name = "there")
          ∧ (py_strip name ≠ "" → safe_name = py_strip name))
    as (Hs1 & Hs2 & Hs3 & Hs4).
  { subst safe_name. destruct (String.eqb (py_strip name) "") eqn:Hname.
    - apply String.eqb_eq in Hname. by repeat split.
    - apply String.eqb_neq in Hname.
      split; [done|]. split; [apply py_strip_idemp|]. by split. }
  assert (ending ≠ ""
          ∧ (punctuation = None ∨ punctuation = Some "" → ending = "!")
          ∧ (∀ p, punctuation = Some p → p ≠ "" → ending = p))
    as (He1 & He2 & He3).
  { subst ending. destruct punctuation as [p|]; simpl.
    - destruct (String.eqb p "") eqn:Hp.
      + apply String.eqb_eq in Hp. subst p.
        split; [done|]. split; [done|]. by intros p [= <-].
      + apply String.eqb_neq in Hp. split; [done|]. split.
        * intros [Hnone|Hsome]; [done|]. by injection Hsome.
        * intros q Hq. by injection Hq as ->.
    - split; [done|]. by split. }
  done.
Qed.

(** * The further properties on the sample data *)

Lemma scope_join_split_roundtrip_sample :
  List.filter nonempty (py_split (py_join " " ["user"; "read:things"]))
  = ["user"; "read:things"].
Proof.
  apply (scope_join_split_roundtrip ["user"; "read:things"]).
  repeat constructor.
Defined.

Lemma verify_token_scopes_wellformed_sample :
  Forall (λ w, nonempty w = true ∧ no_whitespace w = true)
    ["user"; "read:things"].
Proof.
  apply (verify_token_scopes_wellformed (λ _, "") (λ _, None) "mcp_t1"
           (Reply 200 (Some (JDict sample_response)))
           {| AccessToken.token := "mcp_t1";
              AccessToken.client_id := "client-123";
              AccessToken.scopes := ["user"; "read:things"];
              AccessToken.expires_at := Some 1735689600%Z;
              AccessToken.resource := None |}).
  reflexivity.
Defined.

Lemma verify_token_fields_sample :
  verify_token (λ _, "") (λ _, None) "mcp_t1"
    (Reply 200 (Some (JDict [("active", JBool true); ("exp", JStr "soon")])))
  = None.
Proof.
  apply (proj2 (verify_token_fields (λ _, "") (λ _, None) "mcp_t1"
                  (Reply 200 (Some (JDict [("active", JBool true);
                                           ("exp", JStr "soon")]))))
           200%Z [("active", JBool true); ("exp", JStr "soon")]
           (JStr "soon") ValueError);
    [reflexivity|reflexivity|discriminate|reflexivity].
Defined.

Lemma wrong_client_keeps_code_redeemable_sample :
  ∃ self1,
    exchange_authorization_code (sample_client "client-b" None) sample_code
      "t2" 150 provider_with_code
    = (Raised (HTTPException 400 "Invalid authorization code"), self1)
    ∧ self1 = provider_with_code
    ∧ ∃ token self2,
        exchange_authorization_code (sample_client "client-a" None) sample_code
          "t1" 160 self1
        = (Returned token, self2)
        ∧ OAuthToken.access_token token = "mcp_t1"
        ∧ _auth_codes self2 !! "mcp_c1" = None
        ∧ is_Some (_access_tokens self2 !! "mcp_t1").
Proof.
  apply (wrong_client_keeps_code_redeemable (sample_client "client-a" None)
           (sample_client "client-b" None) sample_code sample_code
           "t1" "t2" 160 150 provider_with_code).
  - reflexivity.
  - reflexivity.
  - simpl. discriminate.
Defined.

Lemma issued_token_lookup_window_sample :
  load_access_token "mcp_t1" 3700
    (exchanged (sample_client "client-a" None) sample_code "t1" 100
       provider_with_code)
  = (Returned (Some (sample_token (Some 3700%Z))),
     exchanged (sample_client "client-a" None) sample_code "t1" 100
       provider_with_code).
Proof.
  pose proof (issued_token_lookup_window (sample_client "client-a" None)
                sample_code "t1" 100 3700 provider_with_code
                (exchanged (sample_client "client-a" None) sample_code "t1"
                   100 provider_with_code)
                {| OAuthToken.access_token := "mcp_t1";
                   OAuthToken.token_type := "Bearer";
                   OAuthToken.expires_in := Some 3600%Z;
                   OAuthToken.scope := Some "user read";
                   OAuthToken.refresh_token := None |}) as H.
  cbv zeta in H. destruct H as (_ & _ & _ & H & _);
    [vm_compute; reflexivity|].
  apply H. vm_compute. discriminate.
Defined.

Lemma revoked_token_not_loaded_sample :
  load_access_token "mcp_t1" 1000
    (revoke_token (inl (sample_token (Some 5000%Z)))
       (provider_with_token (Some 5000%Z))).2
  = (Returned None,
     (revoke_token (inl (sample_token (Some 5000%Z)))
        (provider_with_token (Some 5000%Z))).2)
  ∧ (load_access_token "mcp_t9" 1000
       (revoke_token (inl (sample_token (Some 5000%Z)))
          (provider_with_token (Some 5000%Z))).2).1
    = (load_access_token "mcp_t9" 1000 (provider_with_token (Some 5000%Z))).1.
Proof.
  pose proof (revoked_token_not_loaded (sample_token (Some 5000%Z)) "mcp_t9"
                1000 (provider_with_token (Some 5000%Z))) as H.
  cbv zeta in H. destruct H as (H1 & H2).
  split; [exact H1|]. apply H2. simpl. discriminate.
Defined.

Lemma login_page_between_authorize_and_login_sample :
  login_page (Some "S1") provider_with_pending
  = (Returned (HTMLResponse "S1"), provider_with_pending).
Proof.
  destruct (login_page_between_authorize_and_login accept_http) as (H & _).
  apply (H (sample_client "client-a" None) (sample_params (Some "S1")) "rnd"
           sample_provider).
  simpl. discriminate.
Defined.

Lemma authorize_overwrites_state_sample :
  (authorize (sample_client "client-a" None) (sample_params None) "rnd"
     sample_provider).1
  = Returned "http://localhost:9000/login?state=rnd&client_id=client-a"
  ∧ (state_data.client_id
       <$> _state_map
             (authorize (sample_client "client-b" None)
                (sample_params (Some "S1")) "rnd" provider_with_pending).2
           !! "S1")
    = Some (Some "client-b").
Proof.
  split.
  - pose proof (authorize_overwrites_state (sample_client "client-a" None)
                  (sample_client "client-b" None) (sample_params None)
                  (sample_params (Some "S1")) "rnd" "rnd" sample_provider) as H.
    cbv zeta in H. destruct H as (H & _). rewrite H. reflexivity.
  - pose proof (authorize_overwrites_state (sample_client "client-a" None)
                  (sample_client "client-b" None) (sample_params (Some "S1"))
                  (sample_params (Some "S1")) "rnd" "rnd" sample_provider) as H.
    cbv zeta in H. destruct H as (_ & _ & _ & _ & _ & H).
    destruct (H eq_refl) as (_ & _ & H3 & _). exact H3.
Defined.

Lemma authorize_login_code_roundtrip_sample :
  ∃ self2,
    handle_login_callback accept_http
      (login_form "demo_user" "demo_password" "S1") "c1" 100%Q
      provider_with_pending
    = (Returned (RedirectResponse
         (construct_redirect_uri "http://cb" "mcp_c1" "S1") 302), self2)
    ∧ load_authorization_code (sample_client "client-a" None) "mcp_c1" self2
      = (Returned (Some {|
           AuthorizationCode.code := "mcp_c1";
           AuthorizationCode.scopes := [];
           AuthorizationCode.expires_at := (100 + 300)%Q;
           AuthorizationCode.client_id := "client-a";
           AuthorizationCode.code_challenge := "C";
           AuthorizationCode.redirect_uri := "http://cb";
           AuthorizationCode.redirect_uri_provided_explicitly := true;
           AuthorizationCode.resource := None |}), self2)
    ∧ _state_map self2 !! "S1" = None.
Proof.
  apply (authorize_login_code_roundtrip accept_http
           (sample_client "client-a" None) (sample_params (Some "S1"))
           "rnd" "c1" "http://cb" 100%Q
           (login_form "demo_user" "demo_password" "S1") sample_provider);
    reflexivity.
Defined.

Lemma login_callback_requires_credentials_sample :
  login_form "demo_user" "demo_password" "S1" !! "username"
  = Some (FormStr "demo_user")
  ∧ login_form "demo_user" "demo_password" "S1" !! "password"
    = Some (FormStr "demo_password").
Proof.
  pose proof (login_callback_requires_credentials accept_http
                (login_form "demo_user" "demo_password" "S1") "c1" 100%Q
                provider_with_pending) as H.
  edestruct H as (Hu & Hp & _); [vm_compute; reflexivity|].
  split; [exact Hu|exact Hp].
Defined.

Lemma configuration_and_clients_kept_sample :
  _clients (after_all accept_http calls_between provider_with_code)
  = _clients provider_with_code
  ∧ _token_lifetime_seconds (after_all accept_http calls_between provider_with_code)
    = 3600%Z.
Proof.
  pose proof (configuration_and_clients_kept accept_http calls_between
                provider_with_code) as H.
  cbv zeta in H. destruct H as (_ & _ & H3 & _ & _ & _ & H7).
  split; [apply H7; repeat constructor|exact H3].
Defined.

Lemma extract_bearer_token_trimmed_sample :
  _extract_bearer_token_from_context (context_request sample_headers)
  = Some "mcp_t1"
  ∧ py_strip "mcp_t1" = "mcp_t1".
Proof.
  assert (_extract_bearer_token_from_context (context_request sample_headers)
          = Some "mcp_t1") as H by (vm_compute; reflexivity).
  split; [exact H|].
  exact (proj1 (proj1 (extract_bearer_token_trimmed
                         (context_request sample_headers)) "mcp_t1" H)).
Defined.

Lemma require_authenticated_decision_sample :
  ∃ token verify_token access,
    _extract_bearer_token_from_context (context_request sample_headers)
    = Some token
    ∧ verifier_sample = Some verify_token
    ∧ verify_token token = Some access
    ∧ ["admin"] ≠ []
    ∧ ∀ s, In s ["admin"]
           ↔ In s (default [] (Some ["user"; "admin"]))
             ∧ ¬ In s (AccessToken.scopes access).
Proof.
  exact (require_authenticated_decision (context_request sample_headers)
           verifier_sample (Some ["user"; "admin"])).
Defined.

Lemma server_time_without_verifier_sample :
  server_time Z (λ _, "") (λ z, f_fin (inject_Z z)) (λ _, "")
    ResourceServerSettings.default
    (token_verifier (λ _, "") (λ _, None) sample_post
       ResourceServerSettings.default)
    (context_request sample_headers) 0%Z
  = Denied (PermissionError_text "401 Unauthorized: no verifier configured").
Proof.
  destruct (server_time_without_verifier Z (λ _, "") (λ z, f_fin (inject_Z z))
              (λ _, "") (λ _, "") (λ _, None) sample_post
              ResourceServerSettings.default
              (context_request sample_headers) 0%Z eq_refl eq_refl)
    as [H|H]; [|exact H].
  vm_compute in H. discriminate H.
Defined.

Lemma protected_tool_fails_closed_sample :
  ∃ token data,
    _extract_bearer_token_from_context (context_request sample_headers)
    = Some token
    ∧ token ≠ ""
    ∧ sample_post (introspection_url "http://localhost:9000/") token
      = Reply 200 (Some (JDict data))
    ∧ truthy (default (JBool false) (dict_get data "active")) = true.
Proof.
  edestruct (protected_tool_fails_closed Z (λ _, "") (λ z, f_fin (inject_Z z))
               (λ _, "") (λ _, "") (λ _, None) sample_post sample_rs_settings
               (context_request sample_headers) 0%Z) as [H|[_ H]].
  - vm_compute. reflexivity.
  - vm_compute in H. discriminate H.
  - exact H.
Defined.

Lemma trailing_slash_insensitive_sample :
  introspection_url "http://localhost:9000/" = "http://localhost:9000/introspect"
  ∧ rstrip_slash "http://localhost:9000//" ≠ "http://localhost:9000/".
Proof.
  split; [reflexivity|].
  destruct (trailing_slash_insensitive "http://localhost:9000//" "" "" 0)
    as (_ & _ & H & _).
  exact (H "http://localhost:9000").
Defined.

Lemma greet_never_blank_sample :
  ∃ safe_name ending,
    greet "  " (Some "") = "Hello, " ++ safe_name ++ ending
    ∧ safe_name = "there" ∧ ending = "!".
Proof.
  destruct (greet_never_blank "  " (Some ""))
    as (safe_name & ending & Hgreet & _ & _ & _ & Hname & _ & Hending & _).
  exists safe_name, ending. split; [exact Hgreet|].
  split; [by apply Hname|apply Hending; by right].
Defined.

Lemma flow_tokens_carry_no_scopes_sample :
  ∃ code token self1,
    (load_authorization_code (sample_client "client-a" None) "mcp_c1"
       (after_all accept_http
          [call_authorize (sample_client "client-a" None)
             (sample_params (Some "S1")) "rnd";
           call_handle_login_callback
             (login_form "demo_user" "demo_password" "S1") "c1" 100%Q]
          (InMemoryAuthProvider_init "http://localhost:9000/" "demo_user"
             "demo_password" 3600))).1
    = Returned (Some code)
    ∧ exchange_authorization_code (sample_client "client-a" None) code "t1" 120
        (after_all accept_http
           [call_authorize (sample_client "client-a" None)
              (sample_params (Some "S1")) "rnd";
            call_handle_login_callback
              (login_form "demo_user" "demo_password" "S1") "c1" 100%Q]
           (InMemoryAuthProvider_init "http://localhost:9000/" "demo_user"
              "demo_password" 3600))
      = (Returned token, self1)
    ∧ OAuthToken.scope token = None.
Proof.
  eexists _, _, _.
  split; [vm_compute; reflexivity|]. split; [vm_compute; reflexivity|].
  eapply (flow_tokens_carry_no_scopes accept_http
            [call_authorize (sample_client "client-a" None)
               (sample_params (Some "S1")) "rnd";
             call_handle_login_callback
               (login_form "demo_user" "demo_password" "S1") "c1" 100%Q]
            "http://localhost:9000/" "demo_user" "demo_password" 3600
            (sample_client "client-a" None) "mcp_c1" "t1" 120).
  - vm_compute. reflexivity.
  - vm_compute. reflexivity.
Defined.

Lemma introspect_never_active_sample :
  (introspect provider_validate_access_token {[ "token" := FormStr "" ]} 1000
     (provider_with_token (Some 5000%Z))).1
  = Returned inactive.
Proof.
  destruct (introspect_never_active {[ "token" := FormStr "" ]} 1000
              (provider_with_token (Some 5000%Z))) as (_ & H).
  destruct (H inactive) as (_ & _); [vm_compute; reflexivity|].
  vm_compute. reflexivity.
Defined.
